(** * coveralls/api.py: the [Coveralls] report assembler

    A shallow embedding of [src/coveralls/api.py].  Python text is kept as
    a [string] of bytes (the UTF-8 encoding of the text); a Python
    dictionary is an association list in insertion order, which is the
    order [json.dumps] writes; [os.environ] is a finite map. *)

From Stdlib Require Import String Ascii ZArith List Lia Bool.
From stdpp Require Import gmap strings pretty.

Local Open Scope string_scope.
Local Set Warnings "-register-all".

(** ** UTF-8 *)

Module Utf8.

Local Open Scope N_scope.

(** Strict UTF-8 decoding to code points.  [k] continuation bytes are
    still due for the character whose bits so far are [acc] and whose
    shortest encoding needs a value of at least [minv]. *)
Fixpoint decode_from (k : nat) (acc minv : N) (s : string) : option (list N) :=
  match s with
  | EmptyString => match k with O => Some [] | S _ => None end
  | String c s' =>
      let b := N_of_ascii c in
      match k with
      | O =>
          if b <? 128 then cons b <$> decode_from 0 0 0 s'
          else if (192 <=? b) && (b <? 224) then decode_from 1 (N.land b 31) 128 s'
          else if (224 <=? b) && (b <? 240) then decode_from 2 (N.land b 15) 2048 s'
          else if (240 <=? b) && (b <? 248) then decode_from 3 (N.land b 7) 65536 s'
          else None
      | S k' =>
          if (128 <=? b) && (b <? 192) then
            let acc' := acc * 64 + N.land b 63 in
            match k' with
            | O =>
                if (minv <=? acc') && (acc' <=? 1114111)
                   && negb ((55296 <=? acc') && (acc' <=? 57343))
                then cons acc' <$> decode_from 0 0 0 s'
                else None
            | S _ => decode_from k' acc' minv s'
            end
          else None
      end
  end.

Definition decode (s : string) : option (list N) := decode_from 0 0 0 s.

Definition valid (s : string) : bool :=
  match decode s with Some _ => true | None => false end.

(** The characters of a string, each as its own string: a new character
    starts at every byte that is not a continuation byte. *)
Fixpoint chars_aux (cur : string) (s : string) : list string :=
  match s with
  | EmptyString => [cur]
  | String c s' =>
      let b := N_of_ascii c in
      if (128 <=? b) && (b <? 192)
      then chars_aux (cur +:+ String c EmptyString) s'
      else cur :: chars_aux (String c EmptyString) s'
  end.

Definition chars (s : string) : list string :=
  match s with
  | EmptyString => []
  | String c s' => chars_aux (String c EmptyString) s'
  end.

End Utf8.

(** ** Text helpers: the [str] methods the module calls *)

Module Str.

(** [s.split(sep)] for a one-character separator: never empty. *)
Fixpoint split (sep : ascii) (s : string) : list string :=
  match s with
  | EmptyString => [EmptyString]
  | String c s' =>
      if Ascii.eqb c sep then EmptyString :: split sep s'
      else match split sep s' with
           | h :: t => String c h :: t
           | [] => [String c EmptyString]
           end
  end.

(** [l[-1]] on a list of strings; [None] stands for IndexError. *)
Fixpoint last_item (l : list string) : option string :=
  match l with
  | [] => None
  | [x] => Some x
  | _ :: t => last_item t
  end.

(** [c in s] for a character. *)
Fixpoint mem (c : ascii) (s : string) : bool :=
  match s with
  | EmptyString => false
  | String d s' => Ascii.eqb d c || mem c s'
  end.

(** [s.startswith(p)]. *)
Fixpoint startswith (p s : string) : bool :=
  match p, s with
  | EmptyString, _ => true
  | String a p', String b s' => Ascii.eqb a b && startswith p' s'
  | String _ _, EmptyString => false
  end.

(** [p in s] for strings. *)
Fixpoint contains (p s : string) : bool :=
  startswith p s ||
  match s with
  | EmptyString => false
  | String _ s' => contains p s'
  end.

Fixpoint drop (n : nat) (s : string) : string :=
  match n, s with
  | O, _ => s
  | S n', String _ s' => drop n' s'
  | S _, EmptyString => EmptyString
  end.

(** [c.lower()] on the ASCII letters; bytes of a multi-byte character
    are left alone (no such character lowers to an ASCII letter of
    the word true). *)
Definition lower_char (c : ascii) : ascii :=
  let n := nat_of_ascii c in
  if (65 <=? n)%nat && (n <=? 90)%nat then ascii_of_nat (n + 32) else c.

Fixpoint lower (s : string) : string :=
  match s with
  | EmptyString => EmptyString
  | String c s' => String (lower_char c) (lower s')
  end.

(** A string from its bytes. *)
Definition of_bytes (l : list nat) : string :=
  fold_right (fun n s => String (ascii_of_nat n) s) EmptyString l.

(** The white space of [str.strip()] and [str.split()], each character by
    its UTF-8 bytes: U+0009 to U+000D, U+001C to U+0020, U+0085, U+00A0,
    U+1680, U+2000 to U+200A, U+2028, U+2029, U+202F, U+205F, U+3000. *)
Definition spaces : list string :=
  map of_bytes
    [ [9]; [10]; [11]; [12]; [13]; [28]; [29]; [30]; [31]; [32];
      [194; 133]; [194; 160]; [225; 154; 128];
      [226; 128; 128]; [226; 128; 129]; [226; 128; 130]; [226; 128; 131];
      [226; 128; 132]; [226; 128; 133]; [226; 128; 134]; [226; 128; 135];
      [226; 128; 136]; [226; 128; 137]; [226; 128; 138];
      [226; 128; 168]; [226; 128; 169]; [226; 128; 175];
      [226; 129; 159]; [227; 128; 128] ]%nat.

(** Whether a character, given as its own string, is white space. *)
Definition is_space (ch : string) : bool := existsb (String.eqb ch) spaces.

Fixpoint concat (l : list string) : string :=
  match l with
  | [] => EmptyString
  | x :: t => x +:+ concat t
  end.

Fixpoint lstrip_chars (l : list string) : list string :=
  match l with
  | ch :: t => if is_space ch then lstrip_chars t else l
  | [] => []
  end.

(** [s.strip()] *)
Definition strip (s : string) : string :=
  concat (rev (lstrip_chars (rev (lstrip_chars (Utf8.chars s))))).

(** [s.split()]: the maximal runs of characters that are not white space;
    [cur] is the run being read. *)
Fixpoint words_aux (cur : option string) (l : list string) : list string :=
  match l with
  | [] =>
      match cur with Some w => [w] | None => [] end
  | ch :: l' =>
      if is_space ch then
        match cur with
        | Some w => w :: words_aux None l'
        | None => words_aux None l'
        end
      else
        words_aux (Some (match cur with
                         | Some w => w +:+ ch
                         | None => ch
                         end)) l'
  end.

Definition words (s : string) : list string := words_aux None (Utf8.chars s).

(** The line boundaries of [str.splitlines()]: U+000A to U+000D, U+001C to
    U+001E, U+0085, U+2028, U+2029. *)
Definition linebreaks : list string :=
  map of_bytes
    [ [10]; [11]; [12]; [13]; [28]; [29]; [30];
      [194; 133]; [226; 128; 168]; [226; 128; 169] ]%nat.

Definition is_linebreak (ch : string) : bool :=
  existsb (String.eqb ch) linebreaks.

(** [s.splitlines()]: a carriage return and the line feed after it are
    one boundary; no empty last line. *)
Fixpoint splitlines_aux (cur : string) (started : bool) (l : list string)
  : list string :=
  match l with
  | [] => if started then [cur] else []
  | ch :: l' =>
      if is_linebreak ch then
        match l' with
        | d :: l'' =>
            if String.eqb ch (of_bytes [13%nat]) && String.eqb d (of_bytes [10%nat])
            then cur :: splitlines_aux EmptyString false l''
            else cur :: splitlines_aux EmptyString false l'
        | [] => [cur]
        end
      else splitlines_aux (cur +:+ ch) true l'
  end.

Definition splitlines (s : string) : list string :=
  splitlines_aux EmptyString false (Utf8.chars s).

(** [sep.join(l)]. *)
Fixpoint join (sep : string) (l : list string) : string :=
  match l with
  | [] => EmptyString
  | [x] => x
  | x :: t => x +:+ sep +:+ join sep t
  end.

End Str.

(** ** Python values *)

(** The values a report holds: what YAML, JSON and the reporter produce.
    A [PStr] is a string given by its bytes: a text string is its UTF-8
    encoding, and a Python 2 byte string may hold any bytes. *)
Inductive pyval : Type :=
| PNone
| PBool (b : bool)
| PInt (n : Z)
| PStr (s : string)
| PList (l : list pyval)
| PDict (d : list (string * pyval)).

Abbreviation dict := (list (string * pyval)).

(** Truth value of an object, as [if x:] tests it. *)
Definition truthy (v : pyval) : bool :=
  match v with
  | PNone => false
  | PBool b => b
  | PInt n => negb (n =? 0)%Z
  | PStr s => negb (String.eqb s "")
  | PList l => match l with [] => false | _ => true end
  | PDict d => match d with [] => false | _ => true end
  end.

Definition truthy_opt (o : option pyval) : bool :=
  match o with Some v => truthy v | None => false end.

(** Truth value of [os.environ.get(k)]. *)
Definition env_truthy (o : option string) : bool :=
  match o with Some s => negb (String.eqb s "") | None => false end.

Module Dict.

(** [d.get(k)] *)
Fixpoint get (k : string) (d : dict) : option pyval :=
  match d with
  | [] => None
  | (k', v) :: d' => if String.eqb k' k then Some v else get k d'
  end.

(** [k in d] *)
Definition mem (k : string) (d : dict) : bool :=
  match get k d with Some _ => true | None => false end.

(** [d[k] = v]: an existing key keeps its place, a new one goes last. *)
Fixpoint set (k : string) (v : pyval) (d : dict) : dict :=
  match d with
  | [] => [(k, v)]
  | (k', v') :: d' =>
      if String.eqb k' k then (k, v) :: d' else (k', v') :: set k v d'
  end.

(** [d.update(e)] *)
Definition update (d e : dict) : dict :=
  fold_left (fun acc kv => set (fst kv) (snd kv) acc) e d.

End Dict.

(** ** The process environment and the CI providers *)

Abbreviation environ := (gmap string string).

(** What a [load_config_from_*] returns: [(service_name, job, pr)]. *)
Definition ci_triple : Type := string * option string * option string.

Definition load_config_from_appveyor (env : environ) : ci_triple :=
  let pr := env !! "APPVEYOR_PULL_REQUEST_NUMBER" in
  ("appveyor", env !! "APPVEYOR_BUILD_ID", pr).

Definition load_config_from_buildkite (env : environ) : ci_triple :=
  ("buildkite", env !! "BUILDKITE_JOB_ID", None).

(** [x or None] for a string. *)
Definition or_None (s : string) : option string :=
  if String.eqb s "" then None else Some s.

Definition load_config_from_circle (env : environ) : ci_triple :=
  let pr :=
    match Str.last_item (Str.split "/" (default "" (env !! "CI_PULL_REQUEST"))) with
    | Some seg => or_None seg
    | None => None
    end in
  ("circle-ci", env !! "CIRCLE_BUILD_NUM", pr).

Definition load_config_from_travis (env : environ) : ci_triple :=
  ("travis-ci", env !! "TRAVIS_JOB_ID", None).

Definition load_config_from_unknown : ci_triple :=
  ("coveralls-python", None, None).

(** [load_config_from_ci_environment]: the triple, and the new value of
    [self._token_required]. *)
Definition load_config_from_ci_environment (env : environ) (token_required : bool)
  : ci_triple * bool :=
  if env_truthy (env !! "APPVEYOR") then
    (load_config_from_appveyor env, token_required)
  else if env_truthy (env !! "BUILDKITE") then
    (load_config_from_buildkite env, token_required)
  else if env_truthy (env !! "CIRCLECI") then
    (load_config_from_circle env, false)
  else if env_truthy (env !! "TRAVIS") then
    (load_config_from_travis env, false)
  else (load_config_from_unknown, token_required).

(** [load_config_from_environment], on [self.config]. *)
Definition load_config_from_environment (env : environ) (config : dict) : dict :=
  let repo_token := env !! "COVERALLS_REPO_TOKEN" in
  let config :=
    if env_truthy repo_token
    then Dict.set "repo_token" (PStr (default "" repo_token)) config
    else config in
  if String.eqb (Str.lower (default "" (env !! "COVERALLS_PARALLEL"))) "true"
  then Dict.set "parallel" (PBool true) config
  else config.

(** ** Exceptions, events and the state the methods thread *)

(** The exceptions that can leave the module.  [CoverallsException]
    (coveralls/exception.py) and [coverage.CoverageException] are
    unrelated classes, each carrying its message. *)
Inductive exn : Type :=
| CoverallsException (msg : string)
| CoverageException (msg : string)
| UnicodeDecodeError
| AttributeError
| TypeError
| KeyError (k : string)
| IndexError.

Inductive result (A : Type) : Type :=
| Ok (a : A)
| Raise (e : exn).
Arguments Ok {A} a.
Arguments Raise {A} e.

Inductive level : Type := DEBUG | WARNING | ERROR.

(** An argument of a logging call: a value, or the join of a [set] of
    names, whose order Python leaves open. *)
Inductive logarg : Type :=
| AVal (v : pyval)
| AJoin (sep : string) (names : gset string).

(** What the outside world sees of a run. *)
Inductive event : Type :=
| Log (lvl : level) (fmt : string) (args : list logarg)
| LogException (e : exn)
| Popen (args : list string)
| CoverageLoad (config_file : pyval)
| HttpPost (url : string) (json_file : string).

(** A finished subprocess: [cmd.returncode] and what [communicate()] read. *)
Record completed : Type := {
  returncode : Z;
  stdout : string;
  stderr : string
}.

(** A [requests] response; [json] is [None] when the body is not JSON
    ([response.json()] raises ValueError). *)
Record response : Type := {
  status_code : Z;
  text : string;
  json : option dict
}.

(** The collaborators outside the module. *)
Record World : Type := {
  os_environ : environ;
  (** [subprocess.Popen(args).communicate()] *)
  popen : list string -> completed;
  (** the coverage engine and the reporter, run on [config_file] *)
  coverage_report : pyval -> result (list pyval);
  (** [requests.post(url, files={'json_file': body})] *)
  requests_post : string -> string -> response;
  (** how [str.format] shows a captured byte string *)
  format_bytes : string -> string
}.

(** A [Coveralls] object. *)
Record Coveralls : Type := {
  _data : option dict;
  _token_required : bool;
  config : dict
}.

Record state : Type := {
  self : Coveralls;
  trace : list event
}.

Definition M (A : Type) : Type := state -> result A * state.

Definition ret {A} (a : A) : M A := fun st => (Ok a, st).
Definition raise {A} (e : exn) : M A := fun st => (Raise e, st).
Definition bind {A B} (m : M A) (k : A -> M B) : M B :=
  fun st => match m st with
            | (Ok a, st') => k a st'
            | (Raise e, st') => (Raise e, st')
            end.
(** [try: m  except: h] *)
Definition catch {A} (m : M A) (h : exn -> M A) : M A :=
  fun st => match m st with
            | (Ok a, st') => (Ok a, st')
            | (Raise e, st') => h e st'
            end.
Definition emit (ev : event) : M unit :=
  fun st => (Ok tt, {| self := self st; trace := trace st ++ [ev] |}).
Definition get_self : M Coveralls := fun st => (Ok (self st), st).
Definition put_self (c : Coveralls) : M unit :=
  fun st => (Ok tt, {| self := c; trace := trace st |}).
Definition lift {A} (r : result A) : M A := fun st => (r, st).

Notation "'do' x <- m ; k" := (bind m (fun x => k))
  (at level 10, x name, m at level 100, k at level 200).
Notation "m ;; k" := (bind m (fun _ => k))
  (at level 100, k at level 200, right associativity).

Definition set_data (d : option dict) : M unit :=
  do c <- get_self;
  put_self {| _data := d; _token_required := _token_required c; config := config c |}.

(** ** [json.dumps] *)

Definition dquote : ascii := "034"%char.
Definition backslash : ascii := "092"%char.
Definition newline : ascii := "010"%char.

Module Json.

Local Open Scope N_scope.

Definition hex_digit (n : N) : ascii :=
  if n <? 10 then ascii_of_N (48 + n) else ascii_of_N (87 + n).

(** ['{0:04x}'.format(n)] for [n < 65536] *)
Definition hex4 (n : N) : string :=
  String (hex_digit (N.shiftr n 12 mod 16))
    (String (hex_digit (N.shiftr n 8 mod 16))
       (String (hex_digit (N.shiftr n 4 mod 16))
          (String (hex_digit (n mod 16)) EmptyString))).

Definition u_escape (n : N) : string :=
  String backslash (String "u" (hex4 n)).

(** One character of [py_encode_basestring_ascii]. *)
Definition escape (cp : N) : string :=
  if cp =? 34 then String backslash (String dquote EmptyString)
  else if cp =? 92 then String backslash (String backslash EmptyString)
  else if cp =? 10 then String backslash "n"
  else if cp =? 13 then String backslash "r"
  else if cp =? 9 then String backslash "t"
  else if cp =? 12 then String backslash "f"
  else if cp =? 8 then String backslash "b"
  else if (32 <=? cp) && (cp <=? 126) then String (ascii_of_N cp) EmptyString
  else if cp <? 65536 then u_escape cp
  else
    let v := cp - 65536 in
    u_escape (N.lor 55296 (N.land (N.shiftr v 10) 1023))
    +:+ u_escape (N.lor 56320 (N.land v 1023)).

Fixpoint escape_all (cps : list N) : string :=
  match cps with
  | [] => EmptyString
  | cp :: t => escape cp +:+ escape_all t
  end.

(** A string between quotes; bytes that are not UTF-8 cannot be decoded. *)
Definition dumps_str (s : string) : result string :=
  match Utf8.decode s with
  | Some cps => Ok (String dquote (escape_all cps +:+ String dquote EmptyString))
  | None => Raise UnicodeDecodeError
  end.

(** The items of a container, joined by a comma and a space. *)
Fixpoint join_items (l : list (result string)) : result string :=
  match l with
  | [] => Ok EmptyString
  | r :: t =>
      match r with
      | Raise e => Raise e
      | Ok x =>
          match t with
          | [] => Ok x
          | _ :: _ =>
              match join_items t with
              | Ok rest => Ok (x +:+ ", " +:+ rest)
              | Raise e => Raise e
              end
          end
      end
  end.

Definition item (k : result string) (v : result string) : result string :=
  match k, v with
  | Ok k', Ok v' => Ok (k' +:+ ": " +:+ v')
  | Raise e, _ => Raise e
  | _, Raise e => Raise e
  end.

Definition wrap (l r : string) (body : result string) : result string :=
  match body with
  | Ok b => Ok (l +:+ b +:+ r)
  | Raise e => Raise e
  end.

(** [json.dumps(v)] with the default separators and [ensure_ascii]. *)
Fixpoint dumps (v : pyval) : result string :=
  match v with
  | PNone => Ok "null"
  | PBool true => Ok "true"
  | PBool false => Ok "false"
  | PInt n => Ok (pretty n)
  | PStr s => dumps_str s
  | PList l => wrap "[" "]" (join_items (map dumps l))
  | PDict d =>
      wrap "{" "}"
        (join_items (map (fun kv => item (dumps_str (fst kv)) (dumps (snd kv))) d))
  end.



End Json.

(** ** The logging-only redaction

    [re.sub] of [create_report]: the pattern is the quoted key
    [repo_token], a colon, a space and a quoted lazy group [(.+?)]; the
    replacement has [[secure]] for the group. *)

Module Redact.

(** The fixed text the pattern starts with: the quoted key, the colon,
    the space and the opening quote of the value. *)
Definition token_key : string :=
  String dquote ("repo_token" +:+ String dquote (": " +:+ String dquote EmptyString)).

(** The replacement. *)
Definition secure : string :=
  token_key +:+ "[secure]" +:+ String dquote EmptyString.

(** The lazy tail of the group and the closing quote: characters other
    than a newline up to the first quote; the number of characters
    taken, quote included. *)
Fixpoint lazy_to_quote (s : string) : option nat :=
  match s with
  | EmptyString => None
  | String c s' =>
      if Ascii.eqb c dquote then Some 1%nat
      else if Ascii.eqb c newline then None
      else S <$> lazy_to_quote s'
  end.

(** The group and the closing quote: the group takes at least one
    character, whatever it is except a newline. *)
Definition match_group (s : string) : option nat :=
  match s with
  | EmptyString => None
  | String c s' =>
      if Ascii.eqb c newline then None else S <$> lazy_to_quote s'
  end.

(** The length of the match of the whole pattern at the start of [s]. *)
Definition match_at (s : string) : option nat :=
  if Str.startswith token_key s
  then (fun n => String.length token_key + n)%nat
         <$> match_group (Str.drop (String.length token_key) s)
  else None.

(** Leftmost matches, not overlapping: [skip] characters of [s] belong
    to the match just replaced. *)
Fixpoint sub_from (skip : nat) (s : string) : string :=
  match s with
  | EmptyString => EmptyString
  | String c s' =>
      match skip with
      | S k => sub_from k s'
      | O =>
          match match_at s with
          | Some n => secure +:+ sub_from (n - 1) s'
          | None => String c (sub_from 0 s')
          end
      end
  end.

Definition sub (s : string) : string := sub_from 0 s.

(** No match of the key text begins inside [pre] when the key text
    follows it. *)
Fixpoint clear (pre : string) : bool :=
  match pre with
  | EmptyString => true
  | String _ pre' =>
      negb (Str.startswith token_key (pre +:+ token_key)) && clear pre'
  end.

End Redact.

(** ** Running the version-control tool *)

(** What [run_command] makes of a finished subprocess. *)
Definition command_result (w : World) (cmd : completed) : result string :=
  if negb (returncode cmd =? 0)%Z then
    Raise (CoverallsException
             ("command return code " +:+ pretty (returncode cmd)
              +:+ ", STDOUT: " +:+ String dquote (format_bytes w (stdout cmd))
              +:+ String dquote (String newline "STDERR: ")
              +:+ String dquote (format_bytes w (stderr cmd))
              +:+ String dquote EmptyString))
  else if Utf8.valid (stdout cmd) then Ok (stdout cmd)
  else Raise UnicodeDecodeError.

Definition run_command (w : World) (args : list string) : M string :=
  emit (Popen args) ;;
  lift (command_result w (popen w args)).

Definition gitlog (w : World) (fmt : string) : M string :=
  run_command w ["git"; "--no-pager"; "log"; "-1"; "--pretty=format:" +:+ fmt].

(** The [remotes] comprehension of [git_info]. *)
Fixpoint fetch_remotes (lines : list string) : result (list pyval) :=
  match lines with
  | [] => Ok []
  | line :: rest =>
      if Str.contains "(fetch)" line then
        match Str.words line with
        | name :: url :: _ =>
            match fetch_remotes rest with
            | Ok r => Ok (PDict [("name", PStr name); ("url", PStr url)] :: r)
            | Raise e => Raise e
            end
        | _ => Raise IndexError
        end
      else fetch_remotes rest
  end.

(** [a or b] on [os.environ.get] results. *)
Definition env_or (a b : option string) : option string :=
  if env_truthy a then a else b.

Definition git_info (w : World) : M dict :=
  let env := os_environ w in
  do rev <- run_command w ["git"; "rev-parse"; "--abbrev-ref"; "HEAD"];
  let rev := Str.strip rev in
  do remotes <- run_command w ["git"; "remote"; "-v"];
  let remotes := Str.splitlines remotes in
  do id <- gitlog w "%H";
  do author_name <- gitlog w "%aN";
  do author_email <- gitlog w "%ae";
  do committer_name <- gitlog w "%cN";
  do committer_email <- gitlog w "%ce";
  do message <- gitlog w "%s";
  let branch :=
    env_or (env !! "CIRCLE_BRANCH")
      (env_or (env !! "APPVEYOR_REPO_BRANCH")
         (env_or (env !! "BUILDKITE_BRANCH")
            (env_or (env !! "CI_BRANCH")
               (Some (default rev (env !! "TRAVIS_BRANCH")))))) in
  do remotes <- lift (fetch_remotes remotes);
  ret [("git",
        PDict [("head",
                PDict [("id", PStr id);
                       ("author_name", PStr author_name);
                       ("author_email", PStr author_email);
                       ("committer_name", PStr committer_name);
                       ("committer_email", PStr committer_email);
                       ("message", PStr message)]);
               ("branch", match branch with Some b => PStr b | None => PNone end);
               ("remotes", PList remotes)])].

(** The eight commands [git_info] runs, in order. *)
Definition git_commands : list (list string) :=
  [ ["git"; "rev-parse"; "--abbrev-ref"; "HEAD"];
    ["git"; "remote"; "-v"];
    ["git"; "--no-pager"; "log"; "-1"; "--pretty=format:%H"];
    ["git"; "--no-pager"; "log"; "-1"; "--pretty=format:%aN"];
    ["git"; "--no-pager"; "log"; "-1"; "--pretty=format:%ae"];
    ["git"; "--no-pager"; "log"; "-1"; "--pretty=format:%cN"];
    ["git"; "--no-pager"; "log"; "-1"; "--pretty=format:%ce"];
    ["git"; "--no-pager"; "log"; "-1"; "--pretty=format:%s"] ].

(** ** Building the report *)

Definition get_coverage (w : World) : M (list pyval) :=
  do c <- get_self;
  let config_file := default (PBool true) (Dict.get "config_file" (config c)) in
  emit (CoverageLoad config_file) ;;
  lift (coverage_report w config_file).

(** What iterating over a value yields; [None] when it is not iterable. *)
Definition iter_items (v : pyval) : option (list pyval) :=
  match v with
  | PList l => Some l
  | PStr s => Some (map PStr (Utf8.chars s))
  | PDict d => Some (map (fun kv => PStr (fst kv)) d)
  | PNone | PBool _ | PInt _ => None
  end.

Definition is_source_files (v : pyval) : bool :=
  match v with PStr s => String.eqb s "source_files" | _ => false end.

(** ['source_files' in extra], then [extra['source_files']]: the value to
    merge, [None] when the key is not there. *)
Definition extra_source_files (extra : pyval) : result (option pyval) :=
  match extra with
  | PDict e => Ok (Dict.get "source_files" e)
  | PList l => if existsb is_source_files l then Raise TypeError else Ok None
  | PStr s => if Str.contains "source_files" s then Raise TypeError else Ok None
  | PNone | PBool _ | PInt _ => Raise TypeError
  end.

Definition no_data_warning : string :=
  "No data to be merged; does the json file contain "
  +:+ String dquote ("source_files" +:+ String dquote " data?").

(** [self._data['source_files'].extend(x)].  The list is the object the
    configuration holds when [config] has a ['source_files'] of its own,
    so that one grows with it. *)
Definition extend_source_files (x : pyval) : M unit :=
  do c <- get_self;
  match _data c with
  | None => raise TypeError
  | Some d =>
      match Dict.get "source_files" d with
      | None => raise (KeyError "source_files")
      | Some (PList l) =>
          match iter_items x with
          | None => raise TypeError
          | Some xs =>
              let l' := PList (l ++ xs) in
              put_self {| _data := Some (Dict.set "source_files" l' d);
                          _token_required := _token_required c;
                          config := if Dict.mem "source_files" (config c)
                                    then Dict.set "source_files" l' (config c)
                                    else config c |}
          end
      | Some _ => raise AttributeError
      end
  end.

Definition data_truthy (o : option dict) : bool :=
  match o with Some d => truthy (PDict d) | None => false end.

(** The three statements that fill [self._data]: the coverage, then the
    git information, then the configuration over them. *)
Definition assemble (w : World) : M unit :=
  do files <- get_coverage w;
  set_data (Some [("source_files", PList files)]) ;;
  do git <- git_info w;
  do c <- get_self;
  set_data (Some (Dict.update (default [] (_data c)) git)) ;;
  do c <- get_self;
  set_data (Some (Dict.update (default [] (_data c)) (config c))).

(** The [if extra:] block. *)
Definition merge_extra (extra : pyval) : M unit :=
  if truthy extra then
    do x <- lift (extra_source_files extra);
    match x with
    | Some x => extend_source_files x
    | None => emit (Log WARNING no_data_warning [])
    end
  else ret tt.

Definition create_data (w : World) (extra : pyval) : M dict :=
  do c <- get_self;
  if data_truthy (_data c) then ret (default [] (_data c))
  else
    assemble w ;;
    merge_extra extra ;;
    do c <- get_self;
    ret (default [] (_data c)).

(** [merge(path)], given the JSON value read from [path]. *)
Definition merge (w : World) (extra : pyval) : M unit :=
  create_data w extra ;; ret tt.

(** ** Serializing and submitting *)

(** [len(v)]; [None] when the value has no length. *)
Definition py_len (v : pyval) : option Z :=
  (fun l => Z.of_nat (List.length l)) <$> iter_items v.

(** [sum(filter(None, v))] *)
Fixpoint py_sum (acc : Z) (l : list pyval) : result Z :=
  match l with
  | [] => Ok acc
  | PInt n :: t => py_sum (acc + n) t
  | PBool b :: t => py_sum (acc + (if b then 1 else 0)) t
  | _ :: _ => Raise TypeError
  end.

Definition sum_hits (v : pyval) : result Z :=
  match iter_items v with
  | Some l => py_sum 0 (filter (fun x => truthy x = true) l)
  | None => Raise TypeError
  end.

(** [v[k]] for a string key. *)
Definition getitem (v : pyval) (k : string) : result pyval :=
  match v with
  | PDict d =>
      match Dict.get k d with Some x => Ok x | None => Raise (KeyError k) end
  | _ => Raise TypeError
  end.

(** The names [debug_bad_encoding] has collected: the strings, and whether
    some name is not a string (which [join] then refuses). *)
Record at_fault : Type := {
  names : gset string;
  other : bool
}.

Definition add_name (name : pyval) (a : at_fault) : result at_fault :=
  match name with
  | PStr s => Ok {| names := {[ s ]} ∪ names a; other := other a |}
  | PNone | PBool _ | PInt _ => Ok {| names := names a; other := true |}
  | PList _ | PDict _ => Raise TypeError
  end.

(** The inner loop: one [json.dumps] per field of a record. *)
Fixpoint check_values (record : pyval) (values : list pyval) (a : at_fault)
  : result at_fault :=
  match values with
  | [] => Ok a
  | value :: rest =>
      match Json.dumps value with
      | Ok _ => check_values record rest a
      | Raise _ =>
          match getitem record "name" with
          | Raise e => Raise e
          | Ok name =>
              match add_name name a with
              | Ok a' => check_values record rest a'
              | Raise e => Raise e
              end
          end
      end
  end.

(** The outer loop, over [data['source_files']]. *)
Fixpoint check_files (files : list pyval) (a : at_fault) : result at_fault :=
  match files with
  | [] => Ok a
  | source_file_data :: rest =>
      match source_file_data with
      | PDict d =>
          match check_values source_file_data (map snd d) a with
          | Ok a' => check_files rest a'
          | Raise e => Raise e
          end
      | _ => Raise AttributeError
      end
  end.

Definition bad_encoding_hint : string :=
  "HINT: Following files cannot be decoded properly into "
  +:+ "unicode. Check their content: %s".

Definition debug_bad_encoding (data : dict) : M unit :=
  do files <- lift (getitem (PDict data) "source_files");
  match iter_items files with
  | None => raise TypeError
  | Some files =>
      do a <- lift (check_files files {| names := ∅; other := false |});
      if other a then raise TypeError
      else if decide (names a = ∅) then ret tt
      else emit (Log ERROR bad_encoding_hint [AJoin ", " (names a)])
  end.

(** The loop that logs one line per source file. *)
Fixpoint log_files (files : list pyval) : M unit :=
  match files with
  | [] => ret tt
  | source_file :: rest =>
      do name <- lift (getitem source_file "name");
      do cov <- lift (getitem source_file "coverage");
      do hits <- lift (sum_hits cov);
      do cov' <- lift (getitem source_file "coverage");
      match py_len cov' with
      | None => raise TypeError
      | Some total =>
          emit (Log DEBUG "%s - %s/%s"
                  [AVal name; AVal (PInt hits); AVal (PInt total)]) ;;
          log_files rest
      end
  end.

Definition create_report (w : World) : M string :=
  do data <- create_data w PNone;
  match Json.dumps (PDict data) with
  | Raise e =>
      emit (Log ERROR "ERROR: While preparing JSON:" []) ;;
      emit (LogException e) ;;
      debug_bad_encoding data ;;
      raise e
  | Ok json_string =>
      let log_string := Redact.sub json_string in
      emit (Log DEBUG log_string []) ;;
      do files <- lift (getitem (PDict data) "source_files");
      match py_len files, iter_items files with
      | Some n, Some l =>
          emit (Log DEBUG ("==" +:+ String newline ("Reporting %s files"
                  +:+ String newline ("==" +:+ String newline EmptyString)))
                  [AVal (PInt n)]) ;;
          log_files l ;;
          ret json_string
      | _, _ => raise TypeError
      end
  end.

Definition api_endpoint : string := "https://coveralls.io/api/v1/jobs".
Definition config_filename : string := ".coveralls.yml".

Definition wear (w : World) (dry_run : bool) : M dict :=
  do r <- catch (do json_string <- create_report w; ret (inr json_string))
            (fun e => match e with
                      | CoverageException msg =>
                          ret (inl [("message",
                                     PStr ("Failure to gather coverage: " +:+ msg))])
                      | _ => raise e
                      end);
  match r with
  | inl failure => ret failure
  | inr json_string =>
      if dry_run then ret []
      else
        emit (HttpPost api_endpoint json_string) ;;
        let response := requests_post w api_endpoint json_string in
        match json response with
        | Some body => ret body
        | None =>
            ret [("message",
                  PStr ("Failure to submit data. Response ["
                        +:+ pretty (status_code response) +:+ "]: "
                        +:+ text response))]
        end
  end.

(** ** Construction *)

Definition ensure_token (c : Coveralls) : result unit :=
  if truthy_opt (Dict.get "repo_token" (config c)) || negb (_token_required c)
  then Ok tt
  else Raise (CoverallsException
                ("Not on Travis or CircleCI. You have to provide either repo_token "
                 +:+ "in " +:+ config_filename
                 +:+ " or set the COVERALLS_REPO_TOKEN env var.")).

Definition set_if (k : string) (o : option string) (config : dict) : dict :=
  if env_truthy o then Dict.set k (PStr (default "" o)) config else config.

(** [Coveralls(token_required, **kwargs)], where [file_config] is the
    value [load_config_from_file] returned: the empty dictionary when there
    is no file or no PyYAML, and otherwise whatever [yaml.safe_load] gave,
    which is [None] for an empty file.  Only a dictionary has [update]. *)
Definition init (env : environ) (file_config : pyval)
    (token_required : bool) (kwargs : dict) : result Coveralls :=
  match file_config with
  | PDict file_config =>
      let config := Dict.update file_config kwargs in
      let config := load_config_from_environment env config in
      let '((name, job, pr), token_required) :=
        load_config_from_ci_environment env token_required in
      let config :=
        Dict.set "service_name"
          (default (PStr name) (Dict.get "service_name" config)) config in
      let config := set_if "service_job_id" job config in
      let config := set_if "service_pull_request" pr config in
      let c := {| _data := None; _token_required := token_required;
                  config := config |} in
      match ensure_token c with
      | Ok _ => Ok c
      | Raise e => Raise e
      end
  | _ => Raise AttributeError
  end.

(** ** The specification's reading of provider detection

    Section 4.1 and the design notes describe detection as an ordered
    table of providers, the first whose marker is set winning. *)

Record provider : Type := {
  marker : string;
  service : string;
  job_var : string;
  pr_of : environ -> option string
}.

Definition providers : list provider :=
  [ {| marker := "APPVEYOR"; service := "appveyor";
       job_var := "APPVEYOR_BUILD_ID";
       pr_of := fun env => env !! "APPVEYOR_PULL_REQUEST_NUMBER" |};
    {| marker := "BUILDKITE"; service := "buildkite";
       job_var := "BUILDKITE_JOB_ID"; pr_of := fun _ => None |};
    {| marker := "CIRCLECI"; service := "circle-ci";
       job_var := "CIRCLE_BUILD_NUM";
       pr_of := fun env => snd (load_config_from_circle env) |};
    {| marker := "TRAVIS"; service := "travis-ci";
       job_var := "TRAVIS_JOB_ID"; pr_of := fun _ => None |} ].

Definition marker_set (env : environ) (p : provider) : bool :=
  env_truthy (env !! marker p).

(** First matching provider wins; the generic fallback otherwise. *)
Definition detect_provider (env : environ) : ci_triple :=
  match List.find (marker_set env) providers with
  | Some p => (service p, env !! job_var p, pr_of p env)
  | None => ("coveralls-python", None, None)
  end.

(** The pull-request id as the claim words it: the last segment that is
    not empty among those between the slashes. *)
Definition last_nonempty_segment (v : string) : option string :=
  Str.last_item
    (List.filter (fun seg => negb (String.eqb seg "")) (Str.split "/" v)).

(** Equal to the word true, whatever the case of its four letters. *)
Definition is_true_nocase (v : string) : Prop :=
  ∃ a b c d : ascii,
    v = String a (String b (String c (String d EmptyString)))
    ∧ (a = "t" ∨ a = "T")%char ∧ (b = "r" ∨ b = "R")%char
    ∧ (c = "u" ∨ c = "U")%char ∧ (d = "e" ∨ d = "E")%char.



(** ** A sample run, for the examples *)

Definition tab : ascii := "009"%char.

(** A repository on branch [master] with one remote and one commit. *)
Definition sample_popen (args : list string) : completed :=
  match args with
  | ["git"; "rev-parse"; "--abbrev-ref"; "HEAD"] =>
      {| returncode := 0; stdout := "master" +:+ String newline ""; stderr := "" |}
  | ["git"; "remote"; "-v"] =>
      {| returncode := 0;
         stdout := "origin" +:+ String tab ("https://example.org/r.git (fetch)"
                   +:+ String newline ("origin" +:+ String tab
                   ("https://example.org/r.git (push)" +:+ String newline "")));
         stderr := "" |}
  | ["git"; "--no-pager"; "log"; "-1"; "--pretty=format:%H"] =>
      {| returncode := 0; stdout := "5e837ce92220be64"; stderr := "" |}
  | ["git"; "--no-pager"; "log"; "-1"; "--pretty=format:%s"] =>
      {| returncode := 0; stdout := "first commit"; stderr := "" |}
  | ["git"; "--no-pager"; "log"; "-1"; _] =>
      {| returncode := 0; stdout := "ann"; stderr := "" |}
  | _ => {| returncode := 127; stdout := ""; stderr := "not found" |}
  end.

Definition sample_file : pyval :=
  PDict [("name", PStr "a.py");
         ("source", PStr ("x = 1" +:+ String newline ""));
         ("coverage", PList [PInt 1])].

Definition sample_world : World := {|
  os_environ := ∅;
  popen := sample_popen;
  coverage_report := fun _ => Ok [sample_file];
  requests_post := fun _ _ => {| status_code := 200; text := "{}"; json := Some [] |};
  format_bytes := fun b => b
|}.

(** The same repository when git prints an author name in Latin-1: the
    byte 233 stands alone, which is not UTF-8. *)
Definition latin1_world : World := {|
  os_environ := ∅;
  popen := fun _ =>
    {| returncode := 0;
       stdout := "Jos" +:+ String (ascii_of_nat 233) EmptyString;
       stderr := "" |};
  coverage_report := fun _ => Ok [sample_file];
  requests_post := fun _ _ => {| status_code := 200; text := "{}"; json := Some [] |};
  format_bytes := fun b => b
|}.

(** A run in which the coverage engine has no data. *)
Definition no_data_world : World := {|
  os_environ := ∅;
  popen := sample_popen;
  coverage_report := fun _ => Raise (CoverageException "No data to report.");
  requests_post := fun _ _ => {| status_code := 200; text := "{}"; json := Some [] |};
  format_bytes := fun b => b
|}.

(** A source file read as bytes that are not UTF-8. *)
Definition latin1_file : pyval :=
  PDict [("name", PStr "latin1.py");
         ("source", PStr ("# caf" +:+ String (ascii_of_nat 233) EmptyString));
         ("coverage", PList [PNone])].

Definition undecodable_world : World := {|
  os_environ := ∅;
  popen := sample_popen;
  coverage_report := fun _ => Ok [sample_file; latin1_file];
  requests_post := fun _ _ => {| status_code := 200; text := "{}"; json := Some [] |};
  format_bytes := fun b => b
|}.


(** A fresh object with the given configuration. *)
Definition fresh (config : dict) : state :=
  {| self := {| _data := None; _token_required := true; config := config |};
     trace := [] |}.

(** ** Well-formed source-file records *)

(** A record of [source_files] as section 3 has it: a dictionary with a
    [name] that is a string. *)
Definition named_record (f : pyval) : Prop :=
  ∃ d n, f = PDict d ∧ Dict.get "name" d = Some (PStr n).

(** [n] names a file one of whose fields [json.dumps] cannot encode. *)
Definition at_fault_name (files : list pyval) (n : string) : Prop :=
  ∃ d v e,
    In (PDict d) files ∧ Dict.get "name" d = Some (PStr n)
    ∧ In v (map snd d) ∧ Json.dumps v = Raise e.

(** ** More sample runs *)

(** A run outside any git repository: every git command exits with 128. *)
Definition no_git_world : World := {|
  os_environ := ∅;
  popen := fun _ =>
    {| returncode := 128; stdout := "";
       stderr := "fatal: not a git repository" |};
  coverage_report := fun _ => Ok [sample_file];
  requests_post := fun _ _ => {| status_code := 200; text := "{}"; json := Some [] |};
  format_bytes := fun b => b
|}.

(** A service that answers with a page that is not JSON. *)
Definition bad_gateway_world : World := {|
  os_environ := ∅;
  popen := sample_popen;
  coverage_report := fun _ => Ok [sample_file];
  requests_post := fun _ _ =>
    {| status_code := 502; text := "Bad Gateway"; json := None |};
  format_bytes := fun b => b
|}.

(** ** Readings used by the further properties *)

(** The value the call's arguments and the file give to a key, the
    arguments first. *)
Definition configured (k : string) (file_config kwargs : dict) : option pyval :=
  match Dict.get k kwargs with
  | Some v => Some v
  | None => Dict.get k file_config
  end.

(** The keys [__init__] may write besides those it copies. *)
Definition init_keys : list string :=
  ["repo_token"; "parallel"; "service_name"; "service_job_id";
   "service_pull_request"].

(** The [branch] entry of what [git_info] returns. *)
Definition git_branch (g : dict) : option pyval :=
  match Dict.get "git" g with
  | Some (PDict gd) => Dict.get "branch" gd
  | _ => None
  end.


Definition is_fetch (line : string) : bool := Str.contains "(fetch)" line.

(** The sum of the execution counts of a coverage list. *)
Fixpoint count_sum (l : list pyval) : Z :=
  match l with
  | [] => 0
  | PInt n :: t => n + count_sum t
  | _ :: t => count_sum t
  end.

(** An entry of a coverage list: a count or [None]. *)
Definition is_count (v : pyval) : Prop :=
  v = PNone ∨ ∃ n, v = PInt n.

(** A source-file record with a name and a coverage list. *)
Definition covered_record (f : pyval) (name : pyval) (cov : list pyval) : Prop :=
  ∃ d, f = PDict d ∧ Dict.get "name" d = Some name
       ∧ Dict.get "coverage" d = Some (PList cov) ∧ Forall is_count cov.

(** The line [create_report] logs for a record. *)
Definition file_line (name : pyval) (cov : list pyval) : event :=
  Log DEBUG "%s - %s/%s"
    [AVal name; AVal (PInt (count_sum cov));
     AVal (PInt (Z.of_nat (List.length cov)))].

(** * Properties *)

(** ** Dictionaries *)

Lemma get_set_eq k v d : Dict.get k (Dict.set k v d) = Some v.
Proof.
  induction d as [|[k' v'] d IH]; simpl.
  - by rewrite String.eqb_refl.
  - destruct (String.eqb k' k) eqn:E; simpl.
    + by rewrite String.eqb_refl.
    + by rewrite E.
Qed.

Lemma get_set_ne k k' v d : k ≠ k' → Dict.get k' (Dict.set k v d) = Dict.get k' d.
Proof.
  intros Hne. induction d as [|[k0 v0] d IH]; simpl.
  - by apply String.eqb_neq in Hne as ->.
  - destruct (String.eqb k0 k) eqn:E; simpl.
    + apply String.eqb_eq in E as ->.
      by apply String.eqb_neq in Hne as ->.
    + by rewrite IH.
Qed.

Lemma set_nonempty k v d : Dict.set k v d ≠ [].
Proof. destruct d as [|[k' v'] d]; simpl; [done|]. by destruct (String.eqb k' k). Qed.

Lemma update_nonempty d e : d ≠ [] → Dict.update d e ≠ [].
Proof.
  revert d. induction e as [|[k v] e IH]; intros d Hd; simpl; [done|].
  apply IH, set_nonempty.
Qed.

Lemma get_update_None k d e :
  Dict.get k e = None → Dict.get k (Dict.update d e) = Dict.get k d.
Proof.
  unfold Dict.update.
  revert d. induction e as [|[k' v] e IH]; intros d He; simpl in *; [done|].
  destruct (String.eqb k' k) eqn:E; [done|].
  rewrite IH by done.
  apply get_set_ne. by apply String.eqb_neq.
Qed.

Lemma get_update_Some k v d e :
  NoDup e.*1 → Dict.get k e = Some v → Dict.get k (Dict.update d e) = Some v.
Proof.
  unfold Dict.update.
  revert d. induction e as [|[k' v'] e IH]; intros d Hnd He; simpl in *; [done|].
  apply NoDup_cons in Hnd as [Hk' Hnd].
  destruct (String.eqb k' k) eqn:E.
  - apply String.eqb_eq in E as ->. injection He as ->.
    assert (Dict.get k e = None) as Hn.
    { clear -Hk'. induction e as [|[k0 v0] e IH]; simpl in *; [done|].
      destruct (String.eqb k0 k) eqn:E.
      - apply String.eqb_eq in E as ->.
        by apply not_elem_of_cons in Hk' as [? _].
      - apply IH. by apply not_elem_of_cons in Hk' as [_ ?]. }
    pose proof (get_update_None k (Dict.set k v d) e Hn) as Hu.
    unfold Dict.update in Hu. rewrite Hu. apply get_set_eq.
  - by apply IH.
Qed.

(** ** Provider detection *)

(** C4. Detection tries AppVeyor, Buildkite, CircleCI and Travis in that
    order, and the first provider whose marker variable is set and not
    empty fixes the service name and gives the job id from its own
    variable, whatever the other providers' variables hold; with no marker
    set the result is [coveralls-python] with no job id and no
    pull-request id. *)
Theorem ci_detection_first_marker_wins (env : environ) (token_required : bool) :
  fst (load_config_from_ci_environment env token_required) = detect_provider env
  ∧ match List.find (marker_set env) providers with
    | Some p =>
        fst (load_config_from_ci_environment env token_required)
        = (service p, env !! job_var p, pr_of p env)
    | None =>
        fst (load_config_from_ci_environment env token_required)
        = ("coveralls-python", None, None)
    end.
Proof.
  unfold load_config_from_ci_environment, detect_provider, providers, marker_set.
  simpl.
  destruct (env_truthy (env !! "APPVEYOR")); [done|].
  destruct (env_truthy (env !! "BUILDKITE")); [done|].
  destruct (env_truthy (env !! "CIRCLECI")); [done|].
  destruct (env_truthy (env !! "TRAVIS")); done.
Qed.

(** ** The CircleCI pull-request id *)

Lemma split_nonempty sep s : Str.split sep s ≠ [].
Proof.
  destruct s as [|c s]; simpl; [done|].
  destruct (Ascii.eqb c sep); [done|]. by destruct (Str.split sep s).
Qed.

Lemma split_no_sep sep s : Str.mem sep s = false → Str.split sep s = [s].
Proof.
  induction s as [|c s IH]; simpl; [done|].
  intros [Hc Hs]%orb_false_iff. by rewrite Hc, IH.
Qed.

Lemma split_singleton sep s h : Str.split sep s = [h] → Str.mem sep s = false.
Proof.
  revert h. induction s as [|c s IH]; intros h; simpl; [done|].
  destruct (Ascii.eqb c sep) eqn:E.
  - intros [= _ Hs]. by apply split_nonempty in Hs.
  - destruct (Str.split sep s) as [|h' t] eqn:Es; [by apply split_nonempty in Es|].
    intros [= _ ->]. simpl. eauto.
Qed.

(** The last item of [split] is a suffix of the string with no separator
    in it, and what comes before it is empty or ends with the separator. *)
Lemma split_last sep s :
  ∃ pre seg,
    Str.last_item (Str.split sep s) = Some seg
    ∧ s = pre +:+ seg
    ∧ Str.mem sep seg = false
    ∧ (pre = EmptyString ∨ ∃ p, pre = p +:+ String sep EmptyString).
Proof.
  induction s as [|c s (pre & seg & Hl & Hs & Hm & Hp)]; simpl.
  - exists EmptyString, EmptyString. eauto.
  - destruct (Ascii.eqb c sep) eqn:E.
    + apply Ascii.eqb_eq in E as ->.
      exists (String sep pre), seg. simpl.
      destruct (Str.split sep s) eqn:Es; [by apply split_nonempty in Es|].
      rewrite Hl. split_and!; [done|by rewrite Hs|done|].
      destruct Hp as [->|[p ->]]; right.
      * by exists EmptyString.
      * by exists (String sep p).
    + destruct (Str.split sep s) as [|h t] eqn:Es; [by apply split_nonempty in Es|].
      destruct t as [|h' t].
      * pose proof (split_singleton _ _ _ Es) as Hn.
        rewrite (split_no_sep _ _ Hn) in Es. injection Es as <-.
        exists EmptyString, (String c s). simpl. rewrite E, Hn. eauto.
      * exists (String c pre), seg.
        change (Str.last_item (String c h :: h' :: t))
          with (Str.last_item (h :: h' :: t)).
        split_and!; [done|simpl; by rewrite Hs|done|].
        destruct Hp as [->|[p ->]]; [|right; by exists (String c p)].
        change (s = seg) in Hs. subst seg. by rewrite (split_no_sep _ _ Hm) in Es.
Qed.

(** C6, as amended.  Under CircleCI the pull-request id is the part of
    [CI_PULL_REQUEST] after its last slash (the whole value when it has no
    slash) when that part is not empty; it is absent when the variable is
    unset or when that last part is empty, as for a value that ends with a
    slash. *)
Theorem circle_pr_is_last_segment (env : environ) :
  match env !! "CI_PULL_REQUEST" with
  | None => snd (load_config_from_circle env) = None
  | Some v =>
      ∃ pre seg,
        v = pre +:+ seg
        ∧ Str.mem "/" seg = false
        ∧ (pre = EmptyString ∨ ∃ p, pre = p +:+ "/")
        ∧ snd (load_config_from_circle env)
          = (if String.eqb seg "" then None else Some seg)
  end.
Proof.
  unfold load_config_from_circle. simpl.
  destruct (env !! "CI_PULL_REQUEST") as [v|]; simpl; [|done].
  destruct (split_last "/" v) as (pre & seg & -> & Hv & Hm & Hp).
  exists pre, seg. by unfold or_None.
Qed.

(** C6, the claim as worded fails: for a value that ends with a slash the
    code gives no pull-request id, though a segment that is not empty
    exists. *)
Lemma circle_pr_trailing_slash_counterexample :
  ¬ (∀ env : environ,
       snd (load_config_from_circle env)
       = match env !! "CI_PULL_REQUEST" with
         | Some v => last_nonempty_segment v
         | None => None
         end).
Proof.
  intros H.
  specialize (H {[ "CI_PULL_REQUEST" := "https://github.com/o/r/pull/12/" ]}).
  vm_compute in H. discriminate H.
Qed.

(** ** The environment loader *)

Ltac by_cases_on_char c :=
  destruct c as [[] [] [] [] [] [] [] []]; vm_compute;
  split; intros H; try discriminate H; auto;
  destruct H as [H|H]; discriminate H.

Lemma lower_char_t c : Str.lower_char c = "t"%char ↔ (c = "t" ∨ c = "T")%char.
Proof. by_cases_on_char c. Qed.
Lemma lower_char_r c : Str.lower_char c = "r"%char ↔ (c = "r" ∨ c = "R")%char.
Proof. by_cases_on_char c. Qed.
Lemma lower_char_u c : Str.lower_char c = "u"%char ↔ (c = "u" ∨ c = "U")%char.
Proof. by_cases_on_char c. Qed.
Lemma lower_char_e c : Str.lower_char c = "e"%char ↔ (c = "e" ∨ c = "E")%char.
Proof. by_cases_on_char c. Qed.

Lemma lower_true_iff v : Str.lower v = "true" ↔ is_true_nocase v.
Proof.
  split.
  - destruct v as [|a [|b [|c [|d [|e v]]]]]; simpl; intros H; try discriminate H.
    injection H as Ha Hb Hc Hd.
    exists a, b, c, d. split; [done|].
    by rewrite <- lower_char_t, <- lower_char_r, <- lower_char_u, <- lower_char_e.
  - intros (a & b & c & d & -> & Ha & Hb & Hc & Hd). simpl.
    apply lower_char_t in Ha as ->. apply lower_char_r in Hb as ->.
    apply lower_char_u in Hc as ->. by apply lower_char_e in Hd as ->.
Qed.

(** C10. The environment loader sets [parallel] to [True] exactly when
    [COVERALLS_PARALLEL] is the word true in any case; for every other
    value, the empty one and the unset variable included, the [parallel]
    key is as it was (never set to [False]); and no key other than
    [repo_token] and [parallel] is touched. *)
Theorem environment_loader_parallel (env : environ) (config : dict) :
  (is_true_nocase (default "" (env !! "COVERALLS_PARALLEL")) →
   Dict.get "parallel" (load_config_from_environment env config)
   = Some (PBool true))
  ∧ (¬ is_true_nocase (default "" (env !! "COVERALLS_PARALLEL")) →
     Dict.get "parallel" (load_config_from_environment env config)
     = Dict.get "parallel" config)
  ∧ (∀ k, k ≠ "repo_token" → k ≠ "parallel" →
       Dict.get k (load_config_from_environment env config) = Dict.get k config).
Proof.
  unfold load_config_from_environment.
  set (c1 := if env_truthy (env !! "COVERALLS_REPO_TOKEN") then _ else _).
  assert (∀ k, k ≠ "repo_token" → Dict.get k c1 = Dict.get k config) as Hc1.
  { intros k Hk. unfold c1.
    destruct (env_truthy _); [|done]. by apply get_set_ne. }
  split_and!.
  - intros Ht%lower_true_iff. rewrite Ht. simpl. apply get_set_eq.
  - intros Hn. destruct (String.eqb _ "true") eqn:E.
    + by apply String.eqb_eq, lower_true_iff in E.
    + by apply Hc1.
  - intros k Hr Hp. destruct (String.eqb _ "true").
    + rewrite get_set_ne by done. by apply Hc1.
    + by apply Hc1.
Qed.

Lemma environment_loader_parallel_witness :
  Dict.get "parallel"
    (load_config_from_environment {[ "COVERALLS_PARALLEL" := "True" ]} [])
  = Some (PBool true)
  ∧ Dict.get "parallel"
      (load_config_from_environment {[ "COVERALLS_PARALLEL" := "false" ]}
         [("parallel", PInt 7)])
    = Dict.get "parallel" [("parallel", PInt 7)].
Proof.
  split.
  - pose proof (environment_loader_parallel
                  {[ "COVERALLS_PARALLEL" := "True" ]} []) as (H & _ & _).
    apply H.
    exists "T"%char, "r"%char, "u"%char, "e"%char. vm_compute. auto 10.
  - pose proof (environment_loader_parallel
                  {[ "COVERALLS_PARALLEL" := "false" ]}
                  [("parallel", PInt 7)]) as (_ & H & _).
    apply H.
    intros (a & b & c & d & H' & _). vm_compute in H'. discriminate H'.
Defined.

(** ** The token check at construction *)


(** ** Stepping through the monad *)

Lemma bind_ok {A B} (m : M A) (k : A → M B) st b st' :
  bind m k st = (Ok b, st') →
  ∃ a st1, m st = (Ok a, st1) ∧ k a st1 = (Ok b, st').
Proof.
  unfold bind. destruct (m st) as [[a|e] st1]; [eauto|discriminate].
Qed.

Lemma bind_step {A B} (m : M A) (k : A → M B) st a st1 :
  m st = (Ok a, st1) → bind m k st = k a st1.
Proof. unfold bind. by intros ->. Qed.

Lemma bind_raise {A B} (m : M A) (k : A → M B) st e st1 :
  m st = (Raise e, st1) → bind m k st = (Raise e, st1).
Proof. unfold bind. by intros ->. Qed.

(** A computation that leaves the object alone. *)
Definition keeps_self {A} (m : M A) : Prop :=
  ∀ st, self (snd (m st)) = self st.

Lemma keeps_ret {A} (a : A) : keeps_self (ret a).
Proof. done. Qed.
Lemma keeps_raise {A} e : keeps_self (@raise A e).
Proof. done. Qed.
Lemma keeps_lift {A} (r : result A) : keeps_self (lift r).
Proof. done. Qed.
Lemma keeps_emit ev : keeps_self (emit ev).
Proof. done. Qed.
Lemma keeps_get_self : keeps_self get_self.
Proof. done. Qed.
Lemma keeps_bind {A B} (m : M A) (k : A → M B) :
  keeps_self m → (∀ a, keeps_self (k a)) → keeps_self (bind m k).
Proof.
  intros Hm Hk st. unfold bind. specialize (Hm st).
  destruct (m st) as [[a|e] st1]; simpl in *; [|done].
  by rewrite Hk.
Qed.

Create HintDb keeps.
#[local] Hint Resolve keeps_ret keeps_raise keeps_lift keeps_emit
  keeps_get_self : keeps.
#[local] Hint Extern 2 (keeps_self (bind _ _)) =>
  apply keeps_bind; [|intros ?] : keeps.
#[local] Hint Extern 3 (keeps_self (if ?b then _ else _)) => destruct b : keeps.

Lemma keeps_run_command w args : keeps_self (run_command w args).
Proof. unfold run_command. auto with keeps. Qed.
#[local] Hint Resolve keeps_run_command : keeps.

Lemma keeps_gitlog w fmt : keeps_self (gitlog w fmt).
Proof. unfold gitlog. auto with keeps. Qed.
#[local] Hint Resolve keeps_gitlog : keeps.

Lemma keeps_git_info w : keeps_self (git_info w).
Proof. unfold git_info. auto 30 with keeps. Qed.

Lemma keeps_get_coverage w : keeps_self (get_coverage w).
Proof. unfold get_coverage. auto 10 with keeps. Qed.

(** ** Building once *)

Lemma set_data_eq d st :
  set_data d st
  = (Ok tt, {| self := {| _data := d;
                          _token_required := _token_required (self st);
                          config := config (self st) |};
               trace := trace st |}).
Proof. done. Qed.

(** After [assemble] the cache holds a dictionary that starts with
    [source_files]; the rest of the object is as before. *)
Lemma assemble_ok w st u st1 :
  assemble w st = (Ok u, st1) →
  ∃ files git,
    _data (self st1)
    = Some (Dict.update (Dict.update [("source_files", PList files)] git)
              (config (self st)))
    ∧ config (self st1) = config (self st)
    ∧ _token_required (self st1) = _token_required (self st).
Proof.
  unfold assemble. intros H.
  apply bind_ok in H as (files & sc & Hc & H).
  pose proof (keeps_get_coverage w st) as Kc. rewrite Hc in Kc. simpl in Kc.
  apply bind_ok in H as ([] & s2 & H2 & H).
  rewrite set_data_eq in H2. injection H2 as <-.
  apply bind_ok in H as (git & sg & Hg & H).
  pose proof (keeps_git_info w) as Kg. red in Kg.
  match type of Hg with git_info w ?s = _ => specialize (Kg s) end.
  rewrite Hg in Kg. simpl in Kg.
  unfold bind at 1, get_self at 1 in H.
  apply bind_ok in H as ([] & s3 & H3 & H).
  rewrite set_data_eq in H3. injection H3 as <-.
  unfold bind at 1, get_self at 1 in H.
  rewrite set_data_eq in H. injection H as _ <-. simpl.
  rewrite Kg. simpl. rewrite Kc. eauto.
Qed.

Lemma assemble_nonempty w st u st1 :
  assemble w st = (Ok u, st1) →
  ∃ d, _data (self st1) = Some d ∧ d ≠ [].
Proof.
  intros (files & git & -> & _)%assemble_ok.
  eexists. split; [reflexivity|]. by do 2 apply update_nonempty.
Qed.

Lemma extend_source_files_nonempty x st u st1 :
  extend_source_files x st = (Ok u, st1) →
  ∃ d, _data (self st1) = Some d ∧ d ≠ [].
Proof.
  destruct u. unfold extend_source_files, bind, get_self.
  destruct (_data (self st)) as [d|]; [|discriminate].
  destruct (Dict.get "source_files" d) as [[| | | |l|]|]; try discriminate.
  destruct (iter_items x); [|discriminate].
  intros [= <-]. simpl. eexists. split; [reflexivity|]. apply set_nonempty.
Qed.

Lemma merge_extra_nonempty extra st u st1 d :
  _data (self st) = Some d → d ≠ [] →
  merge_extra extra st = (Ok u, st1) →
  ∃ d', _data (self st1) = Some d' ∧ d' ≠ [].
Proof.
  intros Hd Hne. destruct u. unfold merge_extra.
  destruct (truthy extra).
  - intros H. apply bind_ok in H as ([x|] & s1 & Hx & H).
    + by apply extend_source_files_nonempty in H.
    + injection Hx as _ <-. injection H as <-. eauto.
  - intros [= <-]. eauto.
Qed.

(** What a call that returns leaves in the cache. *)
Lemma create_data_caches w extra st d st' :
  create_data w extra st = (Ok d, st') →
  _data (self st') = Some d ∧ d ≠ [].
Proof.
  unfold create_data. unfold bind at 1, get_self at 1.
  destruct (data_truthy (_data (self st))) eqn:Et.
  - intros [= <- <-].
    destruct (_data (self st)) as [[|kv d]|]; try discriminate Et. done.
  - intros H.
    apply bind_ok in H as (u & s1 & Ha & H).
    apply assemble_nonempty in Ha as (d1 & Hd1 & Hne1).
    apply bind_ok in H as (u' & s2 & Hm & H).
    eapply merge_extra_nonempty in Hm as (d2 & Hd2 & Hne2); [|done..].
    injection H as <- <-. by rewrite Hd2.
Qed.

(** C1. The report is built once for an object: when a call of
    [create_data] has returned a report, that report is what the object
    caches, and every later call, whatever payload it is given, returns
    that same report and leaves the object and the trace of outside
    calls as they are. *)
Theorem create_data_memoized (w : World) (extra extra' : pyval)
    (st st' : state) (d : dict) :
  create_data w extra st = (Ok d, st') →
  _data (self st') = Some d
  ∧ create_data w extra' st' = (Ok d, st').
Proof.
  intros [Hd Hne]%create_data_caches. split; [done|].
  unfold create_data. unfold bind at 1, get_self at 1.
  rewrite Hd. destruct d; done.
Qed.

Lemma create_data_memoized_witness :
  ∃ d st',
    create_data sample_world PNone (fresh []) = (Ok d, st')
    ∧ _data (self st') = Some d
    ∧ create_data sample_world (PDict [("source_files", PList [sample_file])]) st'
      = (Ok d, st').
Proof.
  eexists _, _. split; [vm_compute; reflexivity|].
  apply (create_data_memoized sample_world PNone _ (fresh [])).
  vm_compute. reflexivity.
Defined.

(** ** Merging *)

(** A first build without payload, seen from its end: [assemble] ran and
    left the report in the cache. *)
Lemma create_data_first w st d0 st0 :
  data_truthy (_data (self st)) = false →
  create_data w PNone st = (Ok d0, st0) →
  assemble w st = (Ok tt, st0) ∧ _data (self st0) = Some d0.
Proof.
  intros Hu H. pose proof (create_data_caches _ _ _ _ _ H) as [Hd _].
  split; [|done].
  unfold create_data in H. unfold bind at 1, get_self at 1 in H.
  rewrite Hu in H.
  apply bind_ok in H as ([] & s1 & Ha & H).
  unfold merge_extra in H. simpl in H. by injection H as _ <-.
Qed.

Lemma create_data_uncached w extra st sa :
  data_truthy (_data (self st)) = false →
  assemble w st = (Ok tt, sa) →
  create_data w extra st
  = bind (merge_extra extra)
      (fun _ => bind get_self (fun c => ret (default [] (_data c)))) sa.
Proof.
  intros Hu Ha. unfold create_data. unfold bind at 1, get_self at 1.
  rewrite Hu. by rewrite (bind_step _ _ _ _ _ Ha).
Qed.

(** C2, as amended.  On a first build, a payload whose [source_files] is
    a list has its entries put after the entries already there, none of
    them removed or merged, so that the length grows by the number of
    merged entries, and nothing is logged; a payload that is a dictionary
    with some key but no [source_files] leaves the report as it is and
    logs one warning; the empty dictionary as payload is as no payload in
    every state: the same result, the same object, the same log.  The
    report without payload is the one the same build gives when called
    with no payload. *)
Theorem merge_appends_source_files (w : World) (st st0 : state) (d0 e : dict)
    (l : list pyval) :
  data_truthy (_data (self st)) = false →
  create_data w PNone st = (Ok d0, st0) →
  Dict.get "source_files" d0 = Some (PList l) →
  (∀ xs, Dict.get "source_files" e = Some (PList xs) →
     ∃ st1,
       create_data w (PDict e) st
       = (Ok (Dict.set "source_files" (PList (l ++ xs)) d0), st1)
       ∧ trace st1 = trace st0
       ∧ List.length (l ++ xs) = (List.length l + List.length xs)%nat)
  ∧ (e ≠ [] → Dict.get "source_files" e = None →
     create_data w (PDict e) st
     = (Ok d0, {| self := self st0;
                  trace := trace st0 ++ [Log WARNING no_data_warning []] |}))
  ∧ (∀ st', create_data w (PDict []) st' = create_data w PNone st').
Proof.
  intros Hu H0 Hl.
  destruct (create_data_first _ _ _ _ Hu H0) as [Ha Hd].
  split; [|split; [|reflexivity]].
  - intros xs He.
    rewrite (create_data_uncached _ _ _ _ Hu Ha).
    unfold merge_extra.
    assert (truthy (PDict e) = true) as -> by (by destruct e).
    unfold extra_source_files. rewrite He.
    unfold lift, bind at 2. unfold extend_source_files.
    unfold bind, get_self, put_self, ret. rewrite Hd, Hl. simpl.
    eexists. split_and!; [reflexivity|done|apply length_app].
  - intros Hne He.
    rewrite (create_data_uncached _ _ _ _ Hu Ha).
    unfold merge_extra.
    assert (truthy (PDict e) = true) as -> by (by destruct e).
    unfold extra_source_files. rewrite He.
    unfold lift, bind, emit, get_self, ret. simpl. by rewrite Hd.
Qed.

Lemma merge_appends_source_files_witness :
  ∃ d0 st0,
    create_data sample_world PNone (fresh []) = (Ok d0, st0)
    ∧ (∃ st1,
         create_data sample_world (PDict [("source_files", PList [sample_file])])
           (fresh [])
         = (Ok (Dict.set "source_files" (PList ([sample_file] ++ [sample_file])) d0),
            st1)
         ∧ trace st1 = trace st0
         ∧ List.length ([sample_file] ++ [sample_file]) = (1 + 1)%nat)
    ∧ create_data sample_world (PDict [("source", PNone)]) (fresh [])
      = (Ok d0, {| self := self st0;
                   trace := trace st0 ++ [Log WARNING no_data_warning []] |})
    ∧ create_data sample_world (PDict []) (fresh []) = (Ok d0, st0).
Proof.
  destruct (create_data sample_world PNone (fresh [])) as [[d0|e] st0] eqn:H0;
    [|vm_compute in H0; discriminate H0].
  assert (Dict.get "source_files" d0 = Some (PList [sample_file])) as Hl.
  { pose proof H0 as H0'. vm_compute in H0'. injection H0' as Hd _.
    rewrite <- Hd. reflexivity. }
  exists d0, st0. split; [reflexivity|].
  split; [|split].
  - exact (proj1 (merge_appends_source_files sample_world (fresh []) st0 d0
                    [("source_files", PList [sample_file])] [sample_file]
                    eq_refl H0 Hl) [sample_file] eq_refl).
  - refine (proj1 (proj2 (merge_appends_source_files sample_world (fresh []) st0 d0
                            [("source", PNone)] [sample_file]
                            eq_refl H0 Hl)) _ eq_refl).
    discriminate.
  - rewrite <- H0.
    exact (proj2 (proj2 (merge_appends_source_files sample_world (fresh []) st0 d0
                           [] [sample_file] eq_refl H0 Hl)) (fresh [])).
Defined.

(** C2, the claim as worded fails: the empty dictionary is a payload with
    no [source_files], and the build logs no warning for it. *)
Lemma merge_empty_payload_counterexample :
  ¬ (∀ (w : World) (st st' : state) (e d : dict),
       data_truthy (_data (self st)) = false →
       Dict.get "source_files" e = None →
       create_data w (PDict e) st = (Ok d, st') →
       In (Log WARNING no_data_warning []) (trace st')).
Proof.
  intros H.
  specialize (H sample_world (fresh []) _ [] _ eq_refl eq_refl eq_refl).
  vm_compute in H. intuition discriminate.
Qed.

(** ** The command runner *)

Lemma run_command_eq w args st :
  run_command w args st
  = (command_result w (popen w args),
     {| self := self st; trace := trace st ++ [Popen args] |}).
Proof. done. Qed.

Lemma command_result_ok w cmd out :
  command_result w cmd = Ok out → returncode cmd = 0%Z.
Proof.
  unfold command_result.
  destruct (returncode cmd =? 0)%Z eqn:E; simpl; [|discriminate].
  intros _. by apply Z.eqb_eq.
Qed.

(** One failing command is enough for [git_info] to raise. *)
Lemma git_info_aborts w st args :
  In args git_commands → returncode (popen w args) ≠ 0%Z →
  ∃ e st', git_info w st = (Raise e, st').
Proof.
  intros Hin Hrc. unfold git_info, gitlog.
  repeat (unfold bind at 1; rewrite run_command_eq;
          let E := fresh "E" in
          destruct (command_result w (popen w _)) eqn:E; [|by eauto];
          apply command_result_ok in E).
  simpl in Hin.
  repeat (destruct Hin as [<-|Hin]; [done|]). done.
Qed.

(** C7, as amended.  A subprocess that exits with a code other than zero
    makes [run_command] raise [CoverallsException] with a message that
    holds the code and the captured output and error streams; one that
    exits with zero and whose output is valid UTF-8 makes it return that
    output decoded.  When one of the git commands exits with a code other
    than zero, [git_info] raises, and so does a first build that got its
    coverage: the cache is left with the source files alone, no git
    information in it. *)
Theorem run_command_checks_exit_code (w : World) (args : list string) (st : state) :
  (returncode (popen w args) ≠ 0%Z →
   run_command w args st
   = (Raise (CoverallsException
               ("command return code " +:+ pretty (returncode (popen w args))
                +:+ ", STDOUT: "
                +:+ String dquote (format_bytes w (stdout (popen w args)))
                +:+ String dquote (String newline "STDERR: ")
                +:+ String dquote (format_bytes w (stderr (popen w args)))
                +:+ String dquote EmptyString)),
      {| self := self st; trace := trace st ++ [Popen args] |}))
  ∧ (returncode (popen w args) = 0%Z → Utf8.valid (stdout (popen w args)) = true →
     run_command w args st
     = (Ok (stdout (popen w args)),
        {| self := self st; trace := trace st ++ [Popen args] |}))
  ∧ (returncode (popen w args) ≠ 0%Z → In args git_commands →
     (∃ e st', git_info w st = (Raise e, st'))
     ∧ ∀ extra files sc,
         data_truthy (_data (self st)) = false →
         get_coverage w st = (Ok files, sc) →
         ∃ e st',
           create_data w extra st = (Raise e, st')
           ∧ _data (self st') = Some [("source_files", PList files)]).
Proof.
  split_and!.
  - intros Hrc%Z.eqb_neq. rewrite run_command_eq. unfold command_result.
    by rewrite Hrc.
  - intros Hrc%Z.eqb_eq Hv. rewrite run_command_eq. unfold command_result.
    by rewrite Hrc, Hv.
  - intros Hrc Hin. split; [by eapply git_info_aborts|].
    intros extra files sc Hu Hc.
    unfold create_data. unfold bind at 1, get_self at 1. rewrite Hu.
    unfold assemble.
    unfold bind at 1. unfold bind at 1. rewrite Hc.
    unfold bind at 1. rewrite set_data_eq.
    unfold bind at 1.
    match goal with |- context [git_info w ?s] =>
      destruct (git_info_aborts w s args Hin Hrc) as (e & st' & Hg);
      pose proof (keeps_git_info w s) as Kg; rewrite Hg in Kg |- *
    end.
    exists e, st'. split; [done|]. simpl in Kg. by rewrite Kg.
Qed.

Lemma run_command_checks_exit_code_witness :
  run_command sample_world ["git"; "status"] (fresh [])
  = (Raise (CoverallsException
              ("command return code " +:+ pretty 127%Z
               +:+ ", STDOUT: " +:+ String dquote ""
               +:+ String dquote (String newline "STDERR: ")
               +:+ String dquote "not found"
               +:+ String dquote EmptyString)),
     {| self := self (fresh []); trace := [Popen ["git"; "status"]] |})
  ∧ run_command sample_world ["git"; "remote"; "-v"] (fresh [])
    = (Ok (stdout (sample_popen ["git"; "remote"; "-v"])),
       {| self := self (fresh []); trace := [Popen ["git"; "remote"; "-v"]] |}).
Proof.
  split.
  - refine (proj1 (run_command_checks_exit_code sample_world
                     ["git"; "status"] (fresh [])) _).
    vm_compute. discriminate.
  - refine (proj1 (proj2 (run_command_checks_exit_code sample_world
                            ["git"; "remote"; "-v"] (fresh []))) eq_refl eq_refl).
Defined.

(** C7, the claim as worded fails: a subprocess can exit with zero and
    print bytes that are not UTF-8, and then [run_command] raises instead
    of returning. *)
Lemma run_command_undecodable_counterexample :
  ¬ (∀ (w : World) (args : list string) (st : state),
       returncode (popen w args) = 0%Z →
       ∃ out st', run_command w args st = (Ok out, st')).
Proof.
  intros H.
  destruct (H latin1_world
              ["git"; "--no-pager"; "log"; "-1"; "--pretty=format:%aN"]
              (fresh []) eq_refl) as (out & st' & Hr).
  vm_compute in Hr. discriminate Hr.
Qed.

(** ** Running without coverage data *)

(** C8. When the coverage engine raises its exception while a report is
    built for the first time, [wear] returns a dictionary with a
    [message] that describes the failure: the exception does not leave
    [wear], nothing is sent, and the only outside call made is the one to
    the coverage engine. *)
Theorem wear_reports_missing_coverage (w : World) (dry_run : bool) (st : state)
    (msg : string) :
  data_truthy (_data (self st)) = false →
  coverage_report w (default (PBool true) (Dict.get "config_file" (config (self st))))
  = Raise (CoverageException msg) →
  wear w dry_run st
  = (Ok [("message", PStr ("Failure to gather coverage: " +:+ msg))],
     {| self := self st;
        trace := trace st
                 ++ [CoverageLoad (default (PBool true)
                                     (Dict.get "config_file" (config (self st))))] |}).
Proof.
  intros Hu Hc.
  unfold wear, catch, create_report, create_data, assemble, get_coverage.
  unfold bind, get_self, emit, lift, ret. simpl.
  rewrite Hu. simpl. by rewrite Hc.
Qed.

Lemma wear_reports_missing_coverage_witness :
  wear no_data_world false (fresh [])
  = (Ok [("message", PStr ("Failure to gather coverage: " +:+ "No data to report."))],
     {| self := self (fresh []);
        trace := trace (fresh [])
                 ++ [CoverageLoad (default (PBool true)
                                     (Dict.get "config_file"
                                        (config (self (fresh [])))))] |}).
Proof.
  exact (wear_reports_missing_coverage no_data_world false (fresh [])
           "No data to report." eq_refl eq_refl).
Defined.

(** ** Serialization failures *)

Lemma check_values_spec record n values a :
  getitem record "name" = Ok (PStr n) →
  ∃ a',
    check_values record values a = Ok a'
    ∧ other a' = other a
    ∧ ∀ m, m ∈ names a' ↔
           m ∈ names a ∨ (m = n ∧ ∃ v e, In v values ∧ Json.dumps v = Raise e).
Proof.
  intros Hn. revert a.
  induction values as [|v values IH]; intros a; simpl.
  - exists a. split_and!; [done..|]. intros m. split; [auto|].
    intros [?|(_ & v & e & [] & _)]. done.
  - destruct (Json.dumps v) as [s|e] eqn:Ev.
    + destruct (IH a) as (a' & -> & Ho & Hm).
      exists a'. split_and!; [done..|]. intros m. rewrite Hm.
      split; (intros [?|(-> & v' & e' & Hin & Hv')]; [by left|right]).
      * split; [done|]. exists v', e'. split; [by right|done].
      * split; [done|]. destruct Hin as [->|Hin]; [congruence|eauto].
    + rewrite Hn. simpl.
      destruct (IH {| names := {[n]} ∪ names a; other := other a |})
        as (a' & -> & Ho & Hm).
      exists a'. split_and!; [done..|]. intros m. rewrite Hm. simpl.
      rewrite elem_of_union, elem_of_singleton.
      split.
      * intros [[->|?]|(-> & v' & e' & Hin & Hv')]; [right|by left|right];
          (split; [done|]).
        -- exists v, e. split; [by left|done].
        -- exists v', e'. split; [by right|done].
      * intros [?|(-> & _)]; [left; by right|left; by left].
Qed.

Lemma check_files_spec files a :
  Forall named_record files →
  ∃ a',
    check_files files a = Ok a'
    ∧ other a' = other a
    ∧ ∀ m, m ∈ names a' ↔ m ∈ names a ∨ at_fault_name files m.
Proof.
  intros Hf. revert a.
  induction Hf as [|f files (d & n & -> & Hn) Hf IH]; intros a; simpl.
  - exists a. split_and!; [done..|]. intros m. split; [auto|].
    intros [?|(d & v & e & [] & _)]. done.
  - destruct (check_values_spec (PDict d) n (map snd d) a) as (a1 & -> & Ho1 & Hm1).
    { simpl. by rewrite Hn. }
    destruct (IH a1) as (a' & -> & Ho & Hm).
    exists a'. split_and!; [done|congruence|]. intros m.
    rewrite Hm, Hm1. unfold at_fault_name. split.
    + intros [[?|(-> & v & e & Hin & Hv)]|(d' & v & e & Hin & Hd' & Hv)].
      * by left.
      * right. exists d, v, e. split_and!; [by left|done..].
      * right. exists d', v, e. split_and!; [by right|tauto..].
    + intros [?|(d' & v & e & [Heq|Hin] & Hd' & Hv & He)].
      * left. by left.
      * injection Heq as <-. left. right.
        split; [congruence|]. eauto.
      * right. exists d', v, e. eauto.
Qed.

(** C9. When [json.dumps] fails on the report, [create_report] logs the
    error, runs the diagnostic pass, which tries every field of every
    source-file record on its own and logs once the set of the names of
    the files with a field that cannot be encoded (nothing when the set
    is empty), and then raises the failure of [json.dumps] itself; and
    whenever [create_report] returns a string, it is the serialization of
    the whole report.  The records of [source_files] are dictionaries with
    a string for [name]. *)
Theorem create_report_reraises (w : World) (st st1 : state) (data : dict) :
  create_data w PNone st = (Ok data, st1) →
  (∀ e files,
     Json.dumps (PDict data) = Raise e →
     Dict.get "source_files" data = Some (PList files) →
     Forall named_record files →
     ∃ S : gset string,
       (∀ n, n ∈ S ↔ at_fault_name files n)
       ∧ create_report w st
         = (Raise e,
            {| self := self st1;
               trace := trace st1
                        ++ [Log ERROR "ERROR: While preparing JSON:" [];
                            LogException e]
                        ++ (if decide (S = ∅) then []
                            else [Log ERROR bad_encoding_hint [AJoin ", " S]]) |}))
  ∧ (∀ s st2, create_report w st = (Ok s, st2) → Json.dumps (PDict data) = Ok s).
Proof.
  intros Hd. split.
  - intros e files He Hsf Hf.
    destruct (check_files_spec files {| names := ∅; other := false |} Hf)
      as (a & Ha & Ho & Hm).
    exists (names a). split.
    { intros n. rewrite Hm. simpl. split; [|by right].
      intros [H|H]; [by apply not_elem_of_empty in H|done]. }
    unfold create_report. rewrite (bind_step _ _ _ _ _ Hd). rewrite He.
    unfold debug_bad_encoding, getitem. rewrite Hsf.
    unfold bind, emit, lift, raise. simpl. rewrite Ha. simpl in Ho. rewrite Ho.
    destruct (decide (names a = ∅)); simpl; by rewrite <- !app_assoc.
  - intros s st2. unfold create_report. rewrite (bind_step _ _ _ _ _ Hd).
    destruct (Json.dumps (PDict data)) as [js|e]; intros H.
    + apply bind_ok in H as ([] & s1 & _ & H).
      apply bind_ok in H as (files & s2 & _ & H).
      destruct (py_len files), (iter_items files); try discriminate H.
      apply bind_ok in H as ([] & s3 & _ & H).
      apply bind_ok in H as ([] & s4 & _ & H).
      by injection H as <- _.
    + apply bind_ok in H as ([] & s1 & _ & H).
      apply bind_ok in H as ([] & s2 & _ & H).
      apply bind_ok in H as ([] & s3 & _ & H). discriminate H.
Qed.

Lemma create_report_reraises_witness :
  ∃ data st1,
    create_data undecodable_world PNone (fresh []) = (Ok data, st1)
    ∧ ∃ S : gset string,
        (∀ n, n ∈ S ↔ at_fault_name [sample_file; latin1_file] n)
        ∧ create_report undecodable_world (fresh [])
          = (Raise UnicodeDecodeError,
             {| self := self st1;
                trace := trace st1
                         ++ [Log ERROR "ERROR: While preparing JSON:" [];
                             LogException UnicodeDecodeError]
                         ++ (if decide (S = ∅) then []
                             else [Log ERROR bad_encoding_hint [AJoin ", " S]]) |}).
Proof.
  eexists _, _. split; [vm_compute; reflexivity|].
  refine (proj1 (create_report_reraises undecodable_world (fresh []) _ _ eq_refl)
            UnicodeDecodeError [sample_file; latin1_file] eq_refl eq_refl _).
  repeat constructor; eexists _, _; (split; [reflexivity|reflexivity]).
Defined.

(** ** Redaction in the log *)

Lemma app_cons c s t : String c s +:+ t = String c (s +:+ t).
Proof. done. Qed.











Lemma sub_from_here c s :
  Redact.sub_from 0 (String c s)
  = match Redact.match_at (String c s) with
    | Some n => Redact.secure +:+ Redact.sub_from (n - 1) s
    | None => String c (Redact.sub_from 0 s)
    end.
Proof. done. Qed.







(** *** What the escaping writes *)







(** *** What the decoding reads *)









(** A token with a double quote: the logged string still holds what
    follows the quote. *)
Lemma log_string_keeps_text_after_quote :
  ∃ js,
    Json.dumps (PDict [("repo_token", PStr ("abc" +:+ String dquote "SECRETREST"))])
    = Ok js
    ∧ Str.contains "abc" (Redact.sub js) = false
    ∧ Str.contains "SECRETREST" (Redact.sub js) = true.
Proof. eexists. split; [by vm_compute|]. split; by vm_compute. Qed.

(** A token that is not a string is written without quotes, and the
    pattern does not match it. *)
Lemma log_string_keeps_number_token :
  ∃ js,
    Json.dumps (PDict [("repo_token", PInt 12345)]) = Ok js
    ∧ Redact.sub js = js
    ∧ Str.contains "12345" js = true.
Proof. eexists. split; [by vm_compute|]. split; by vm_compute. Qed.


(** What [create_report] logs first when it returns: the redacted
    serialization of the report. *)
Lemma create_report_logs_redacted w st data st1 js st2 :
  create_data w PNone st = (Ok data, st1) →
  create_report w st = (Ok js, st2) →
  ∃ rest : list event,
    trace st2 = (trace st1 ++ Log DEBUG (Redact.sub js) [] :: rest)%list.
Proof.
  intros Hd. unfold create_report. rewrite (bind_step _ _ _ _ _ Hd).
  destruct (Json.dumps (PDict data)) as [js'|e]; intros H.
  - unfold bind at 1, emit at 1 in H.
    apply bind_ok in H as (files & s2 & Hf & H).
    injection Hf as _ <-.
    destruct (py_len files), (iter_items files); try discriminate H.
    unfold bind at 1, emit at 1 in H.
    apply bind_ok in H as ([] & s4 & Hl & H).
    injection H as <- <-.
    assert (∀ l s s', log_files l s = (Ok tt, s') →
              ∃ r : list event, trace s' = (trace s ++ r)%list) as Hlog.
    { clear. induction l as [|f l IH]; intros s s' H.
      - injection H as <-. exists []. by rewrite app_nil_r.
      - simpl in H.
        apply bind_ok in H as (? & ? & [= _ <-] & H).
        apply bind_ok in H as (? & ? & [= _ <-] & H).
        apply bind_ok in H as (? & ? & [= _ <-] & H).
        apply bind_ok in H as (? & ? & [= _ <-] & H).
        destruct (py_len _); [|discriminate H].
        unfold bind at 1, emit at 1 in H.
        apply IH in H as (r & ->). simpl. rewrite <- app_assoc. eauto. }
    apply Hlog in Hl as (r & ->). simpl.
    rewrite <- !app_assoc. simpl. eauto.
  - apply bind_ok in H as ([] & s1' & _ & H).
    apply bind_ok in H as ([] & s2 & _ & H).
    apply bind_ok in H as ([] & s3 & _ & H). discriminate H.
Qed.



(** * Further properties *)

(** ** Construction: where each configuration key comes from *)

(** X1. Provider detection never switches the token requirement on, and
    switches it off exactly when the provider it returns is CircleCI or
    Travis: a CircleCI or Travis marker behind an AppVeyor or Buildkite
    marker leaves the requirement as the caller set it. *)
Theorem ci_detection_token_flag (env : environ) (token_required : bool) :
  snd (load_config_from_ci_environment env token_required)
  = match List.find (marker_set env) providers with
    | Some p =>
        if String.eqb (service p) "circle-ci" || String.eqb (service p) "travis-ci"
        then false else token_required
    | None => token_required
    end.
Proof.
  unfold load_config_from_ci_environment, providers, marker_set. simpl.
  destruct (env_truthy (env !! "APPVEYOR")); [done|].
  destruct (env_truthy (env !! "BUILDKITE")); [done|].
  destruct (env_truthy (env !! "CIRCLECI")); [done|].
  destruct (env_truthy (env !! "TRAVIS")); done.
Qed.

Lemma get_configured k file_config kwargs :
  NoDup kwargs.*1 →
  Dict.get k (Dict.update file_config kwargs) = configured k file_config kwargs.
Proof.
  intros Hnd. unfold configured.
  destruct (Dict.get k kwargs) as [v|] eqn:Ek.
  - by apply get_update_Some.
  - by apply get_update_None.
Qed.

Lemma get_set_if k k' o d :
  Dict.get k' (set_if k o d)
  = if env_truthy o && String.eqb k k' then Some (PStr (default "" o))
    else Dict.get k' d.
Proof.
  unfold set_if. destruct (env_truthy o); simpl; [|done].
  destruct (String.eqb k k') eqn:E.
  - apply String.eqb_eq in E as ->. apply get_set_eq.
  - apply get_set_ne. by apply String.eqb_neq.
Qed.

(** The configuration of a constructed object, as [__init__] builds it. *)
Lemma init_config env file_config token_required kwargs c :
  init env (PDict file_config) token_required kwargs = Ok c →
  config c
  = set_if "service_pull_request"
      (snd (fst (load_config_from_ci_environment env token_required)))
      (set_if "service_job_id"
         (snd (fst (fst (load_config_from_ci_environment env token_required))))
         (Dict.set "service_name"
            (default
               (PStr (fst (fst (fst (load_config_from_ci_environment env
                                       token_required)))))
               (Dict.get "service_name"
                  (load_config_from_environment env
                     (Dict.update file_config kwargs))))
            (load_config_from_environment env (Dict.update file_config kwargs)))).
Proof.
  unfold init.
  destruct (load_config_from_ci_environment env token_required)
    as [[[nm job] pr] tr].
  destruct (ensure_token _); [|discriminate]. by intros [= <-].
Qed.

Lemma get_environment_other env config k :
  k ≠ "repo_token" → k ≠ "parallel" →
  Dict.get k (load_config_from_environment env config) = Dict.get k config.
Proof.
  intros Hr Hp. unfold load_config_from_environment.
  destruct (String.eqb _ "true"); destruct (env_truthy _);
    repeat (rewrite get_set_ne by done); done.
Qed.

(** X2. In a constructed object the repo token is the value of
    [COVERALLS_REPO_TOKEN] when that variable is set and not empty, and
    otherwise what the call's arguments, or failing them the file, give:
    an empty variable overrides nothing. *)
Theorem init_repo_token_source (env : environ) (file_config kwargs : dict)
    (token_required : bool) (c : Coveralls) :
  NoDup kwargs.*1 →
  init env (PDict file_config) token_required kwargs = Ok c →
  Dict.get "repo_token" (config c)
  = if env_truthy (env !! "COVERALLS_REPO_TOKEN")
    then PStr <$> env !! "COVERALLS_REPO_TOKEN"
    else configured "repo_token" file_config kwargs.
Proof.
  intros Hnd Hc. rewrite (init_config _ _ _ _ _ Hc).
  rewrite !get_set_if, !andb_false_r. rewrite get_set_ne by done.
  unfold load_config_from_environment.
  assert (∀ c1, Dict.get "repo_token"
            (if String.eqb (Str.lower (default "" (env !! "COVERALLS_PARALLEL"))) "true"
             then Dict.set "parallel" (PBool true) c1 else c1)
          = Dict.get "repo_token" c1) as ->.
  { intros c1. destruct (String.eqb _ "true"); [|done]. by apply get_set_ne. }
  destruct (env !! "COVERALLS_REPO_TOKEN") as [tok|]; simpl.
  - destruct (String.eqb tok ""); simpl.
    + by apply get_configured.
    + apply get_set_eq.
  - by apply get_configured.
Qed.

Lemma init_repo_token_source_witness :
  ∃ c,
    init {[ "COVERALLS_REPO_TOKEN" := "from-env" ]}
      (PDict [("repo_token", PStr "from-file")]) true
      [("repo_token", PStr "from-call")]
    = Ok c
    ∧ Dict.get "repo_token" (config c) = Some (PStr "from-env").
Proof.
  eexists. split; [vm_compute; reflexivity|].
  refine (init_repo_token_source {[ "COVERALLS_REPO_TOKEN" := "from-env" ]}
            [("repo_token", PStr "from-file")] [("repo_token", PStr "from-call")]
            true _ _ eq_refl).
  repeat constructor. intros H. inversion H.
Defined.

(** X3. A constructed object always has a [service_name]: the value the
    call's arguments or the file give to that key, whatever it is ([None]
    included), and the detected provider's name only when neither has the
    key. *)
Theorem init_service_name_source (env : environ) (file_config kwargs : dict)
    (token_required : bool) (c : Coveralls) :
  NoDup kwargs.*1 →
  init env (PDict file_config) token_required kwargs = Ok c →
  Dict.get "service_name" (config c)
  = Some (default (PStr (fst (fst (detect_provider env))))
            (configured "service_name" file_config kwargs)).
Proof.
  intros Hnd Hc. rewrite (init_config _ _ _ _ _ Hc).
  rewrite !get_set_if, !andb_false_r. rewrite get_set_eq.
  rewrite get_environment_other by done. rewrite get_configured by done.
  do 3 f_equal.
  unfold load_config_from_ci_environment, detect_provider, providers, marker_set.
  simpl. by repeat destruct (env_truthy _).
Qed.

Lemma init_service_name_source_witness :
  ∃ c,
    init {[ "TRAVIS" := "true" ]} (PDict []) true [("service_name", PNone)] = Ok c
    ∧ Dict.get "service_name" (config c) = Some PNone.
Proof.
  eexists. split; [vm_compute; reflexivity|].
  refine (init_service_name_source {[ "TRAVIS" := "true" ]} []
            [("service_name", PNone)] true _ _ eq_refl).
  repeat constructor. intros H. inversion H.
Defined.

(** X4. The job id and the pull-request id of the detected provider go
    over the configured [service_job_id] and [service_pull_request] when
    they are set and not empty; when the provider gives none, or an empty
    one, the configured value stays. *)
Theorem init_job_and_pr_source (env : environ) (file_config kwargs : dict)
    (token_required : bool) (c : Coveralls) :
  NoDup kwargs.*1 →
  init env (PDict file_config) token_required kwargs = Ok c →
  Dict.get "service_job_id" (config c)
  = (if env_truthy (snd (fst (detect_provider env)))
     then PStr <$> snd (fst (detect_provider env))
     else configured "service_job_id" file_config kwargs)
  ∧ Dict.get "service_pull_request" (config c)
    = (if env_truthy (snd (detect_provider env))
       then PStr <$> snd (detect_provider env)
       else configured "service_pull_request" file_config kwargs).
Proof.
  intros Hnd Hc. rewrite (init_config _ _ _ _ _ Hc).
  assert (fst (load_config_from_ci_environment env token_required)
          = detect_provider env) as ->.
  { unfold load_config_from_ci_environment, detect_provider, providers, marker_set.
    simpl. by repeat destruct (env_truthy _). }
  rewrite !get_set_if. simpl. rewrite !andb_true_r, !andb_false_r.
  rewrite !get_set_ne by done.
  rewrite !get_environment_other by done. rewrite !get_configured by done.
  split.
  - by destruct (snd (fst (detect_provider env))).
  - by destruct (snd (detect_provider env)).
Qed.

Lemma init_job_and_pr_source_witness :
  ∃ c,
    init {[ "TRAVIS" := "true"; "TRAVIS_JOB_ID" := "77" ]} (PDict []) true
      [("service_job_id", PStr "1"); ("service_pull_request", PStr "5")] = Ok c
    ∧ Dict.get "service_job_id" (config c) = Some (PStr "77")
    ∧ Dict.get "service_pull_request" (config c) = Some (PStr "5").
Proof.
  eexists. split; [vm_compute; reflexivity|].
  refine (init_job_and_pr_source {[ "TRAVIS" := "true"; "TRAVIS_JOB_ID" := "77" ]}
            [] [("service_job_id", PStr "1"); ("service_pull_request", PStr "5")]
            true _ _ eq_refl).
  repeat constructor; intros H; inversion H; subst.
  match goal with H : _ ∈ [] |- _ => inversion H end.
Defined.

(** X5. Construction copies every other key: a key that is not one of
    [repo_token], [parallel], [service_name], [service_job_id] and
    [service_pull_request] has in the object the value the call's arguments
    give it, or failing them the file, and is absent when neither has
    it. *)
Theorem init_copies_other_keys (env : environ) (file_config kwargs : dict)
    (token_required : bool) (c : Coveralls) (k : string) :
  NoDup kwargs.*1 →
  init env (PDict file_config) token_required kwargs = Ok c →
  ¬ In k init_keys →
  Dict.get k (config c) = configured k file_config kwargs.
Proof.
  intros Hnd Hc Hk. rewrite (init_config _ _ _ _ _ Hc).
  assert (k ≠ "repo_token" ∧ k ≠ "parallel" ∧ k ≠ "service_name"
          ∧ k ≠ "service_job_id" ∧ k ≠ "service_pull_request")
    as (H1 & H2 & H3 & H4 & H5).
  { unfold init_keys in Hk. simpl in Hk. split_and!; intros ->; tauto. }
  rewrite !get_set_if.
  apply not_eq_sym, String.eqb_neq in H4 as ->, H5 as ->.
  rewrite !andb_false_r. rewrite get_set_ne by done.
  rewrite get_environment_other by done. by apply get_configured.
Qed.

Lemma init_copies_other_keys_witness :
  ∃ c,
    init ∅ (PDict [("config_file", PStr ".coveragerc"); ("repo_token", PStr "t")])
      true [("config_file", PStr "tox.ini")] = Ok c
    ∧ Dict.get "config_file" (config c) = Some (PStr "tox.ini").
Proof.
  eexists. split; [vm_compute; reflexivity|].
  refine (init_copies_other_keys ∅
            [("config_file", PStr ".coveragerc"); ("repo_token", PStr "t")]
            [("config_file", PStr "tox.ini")] true _ "config_file" _ eq_refl _).
  - repeat constructor. intros H. inversion H.
  - simpl. intros H. repeat (destruct H as [H|H]; [discriminate H|]). done.
Defined.

(** ** The git collector *)

Lemma command_result_stdout w cmd out :
  command_result w cmd = Ok out → out = stdout cmd.
Proof.
  unfold command_result. destruct (negb _); [discriminate|].
  destruct (Utf8.valid _); [|discriminate]. by intros [= <-].
Qed.

Ltac step_git H :=
  unfold bind at 1 in H; rewrite run_command_eq in H;
  let E := fresh "E" in
  destruct (command_result _ (popen _ _)) eqn:E in H; [|discriminate H].

(** X6. When [git_info] returns, it has run the eight git commands, each
    once and in the order branch, remotes, hash, author name, author
    email, committer name, committer email, message, and nothing else. *)
Theorem git_info_runs_eight_commands (w : World) (st st' : state) (g : dict) :
  git_info w st = (Ok g, st') →
  trace st' = (trace st ++ map Popen git_commands)%list ∧ self st' = self st.
Proof.
  intros H. unfold git_info, gitlog in H.
  do 8 step_git H.
  unfold bind at 1, lift at 1 in H.
  destruct (fetch_remotes _) in H; [|discriminate H].
  injection H as _ <-. simpl. by rewrite <- !app_assoc.
Qed.

Lemma git_info_runs_eight_commands_witness :
  ∃ g st',
    git_info sample_world (fresh []) = (Ok g, st')
    ∧ trace st' = (trace (fresh []) ++ map Popen git_commands)%list
    ∧ self st' = self (fresh []).
Proof.
  eexists _, _. split; [vm_compute; reflexivity|].
  apply (git_info_runs_eight_commands sample_world (fresh []) _ _ eq_refl).
Defined.

(** X7. [git_info] stops at the first command that fails: the commands
    before it have run, the failing one has run, none after it has, and
    the exception raised is that command's. *)
Theorem git_info_stops_at_first_failure (w : World) (st : state)
    (pre post : list (list string)) (args : list string) (e : exn) :
  git_commands = (pre ++ args :: post)%list →
  Forall (fun a => ∃ out, command_result w (popen w a) = Ok out) pre →
  command_result w (popen w args) = Raise e →
  git_info w st
  = (Raise e,
     {| self := self st;
        trace := (trace st ++ map Popen (pre ++ [args]))%list |}).
Proof.
  intros Hg Hpre He. unfold git_commands in Hg.
  repeat (destruct pre as [|? pre]; simplify_eq/=);
    repeat match goal with
           | H : Forall _ (_ :: _) |- _ => apply Forall_cons in H as [[? ?] H]
           end;
    unfold git_info, gitlog; cbv beta iota fix delta [String.append];
    repeat (unfold bind at 1; rewrite run_command_eq;
            first [ rewrite He
                  | match goal with
                    | H : command_result _ _ = Ok _ |- _ => rewrite H
                    end ]);
    simpl; by rewrite <- ?app_assoc.
Qed.

Lemma git_info_stops_at_first_failure_witness :
  git_info latin1_world (fresh [])
  = (Raise UnicodeDecodeError,
     {| self := self (fresh []);
        trace := (trace (fresh [])
                  ++ map Popen ([] ++ [["git"; "rev-parse"; "--abbrev-ref"; "HEAD"]]))%list |}).
Proof.
  refine (git_info_stops_at_first_failure latin1_world (fresh []) [] _ _ _
            eq_refl _ eq_refl).
  constructor.
Defined.

(** X8. The branch [git_info] reports is the first of [CIRCLE_BRANCH],
    [APPVEYOR_REPO_BRANCH], [BUILDKITE_BRANCH] and [CI_BRANCH] that is set
    and not empty; when there is none it is [TRAVIS_BRANCH] whenever that
    variable is set, the empty value included, and only otherwise the
    stripped output of [git rev-parse --abbrev-ref HEAD]. *)
Theorem git_info_branch (w : World) (st st' : state) (g : dict) :
  git_info w st = (Ok g, st') →
  git_branch g
  = Some (PStr
            (match List.find (fun v => env_truthy (os_environ w !! v))
                     ["CIRCLE_BRANCH"; "APPVEYOR_REPO_BRANCH";
                      "BUILDKITE_BRANCH"; "CI_BRANCH"] with
             | Some v => default "" (os_environ w !! v)
             | None =>
                 default
                   (Str.strip
                      (stdout (popen w ["git"; "rev-parse"; "--abbrev-ref"; "HEAD"])))
                   (os_environ w !! "TRAVIS_BRANCH")
             end)).
Proof.
  intros H. unfold git_info, gitlog in H.
  step_git H. apply command_result_stdout in E as ->.
  do 7 step_git H.
  unfold bind at 1, lift at 1 in H.
  destruct (fetch_remotes _) in H; [|discriminate H].
  injection H as <- _.
  generalize (Str.strip (stdout (popen w ["git"; "rev-parse"; "--abbrev-ref"; "HEAD"]))).
  intros rev. unfold git_branch, env_or. cbn [List.find].
  destruct (os_environ w !! "CIRCLE_BRANCH") as [b1|] eqn:H1,
    (os_environ w !! "APPVEYOR_REPO_BRANCH") as [b2|] eqn:H2,
    (os_environ w !! "BUILDKITE_BRANCH") as [b3|] eqn:H3,
    (os_environ w !! "CI_BRANCH") as [b4|] eqn:H4; simpl;
    repeat match goal with
           | |- context [String.eqb ?b ""] => destruct (String.eqb b ""); simpl
           end;
    rewrite ?H1, ?H2, ?H3, ?H4; done.
Qed.

Lemma git_info_branch_witness :
  ∃ g st',
    git_info sample_world (fresh []) = (Ok g, st')
    ∧ git_branch g = Some (PStr "master").
Proof.
  eexists _, _. split; [vm_compute; reflexivity|].
  apply (git_info_branch sample_world (fresh []) _ _ eq_refl).
Defined.



(** X10. The remotes comprehension raises, and then raises IndexError,
    exactly when some line that contains [(fetch)] has fewer than two
    words. *)
Theorem fetch_remotes_index_error (lines : list string) (e : exn) :
  fetch_remotes lines = Raise e
  ↔ e = IndexError
    ∧ Exists (fun line => is_fetch line = true
                          ∧ (List.length (Str.words line) < 2)%nat) lines.
Proof.
  split.
  - revert e. induction lines as [|line lines IH]; intros e; simpl; [discriminate|].
    rewrite Exists_cons. unfold is_fetch at 1.
    destruct (Str.contains "(fetch)" line).
    + destruct (Str.words line) as [|name [|url rest]] eqn:Ew; simpl.
      * intros [= <-]. split; [done|]. left. split; [done|lia].
      * intros [= <-]. split; [done|]. left. split; [done|lia].
      * destruct (fetch_remotes lines) as [r|e']; [discriminate|].
        intros [= <-]. destruct (IH e' eq_refl) as [-> H]. eauto.
    + intros H. destruct (IH e H) as [-> H']. eauto.
  - intros [-> H]. induction lines as [|line lines IH]; [inversion H|].
    apply Exists_cons in H. simpl. unfold is_fetch at 1 in H.
    destruct (Str.contains "(fetch)" line).
    + destruct (Str.words line) as [|name [|url rest]] eqn:Ew; simpl in *;
        [done|done|].
      destruct H as [[_ ?]|H]; [lia|]. by rewrite (IH H).
    + destruct H as [[? _]|H]; [done|]. by apply IH.
Qed.

(** ** What a built report holds *)






(** X12. A first build that got its coverage and then failed in git
    leaves a report of [source_files] alone in the cache, and every later
    call of [create_data] returns that report, without git information and
    without the configuration, raising nothing and running nothing. *)
Theorem create_data_after_git_failure (w : World) (st sc : state)
    (extra : pyval) (files : list pyval) (args : list string) :
  data_truthy (_data (self st)) = false →
  get_coverage w st = (Ok files, sc) →
  In args git_commands → returncode (popen w args) ≠ 0%Z →
  ∃ e st1,
    create_data w extra st = (Raise e, st1)
    ∧ ∀ extra',
        create_data w extra' st1 = (Ok [("source_files", PList files)], st1).
Proof.
  intros Hu Hc Hin Hrc.
  unfold create_data at 1. unfold bind at 1, get_self at 1. rewrite Hu.
  unfold assemble.
  unfold bind at 1. unfold bind at 1. rewrite Hc.
  unfold bind at 1. rewrite set_data_eq.
  unfold bind at 1.
  match goal with |- context [git_info w ?s] =>
    destruct (git_info_aborts w s args Hin Hrc) as (e & st1 & Hg);
    pose proof (keeps_git_info w s) as Kg; rewrite Hg in Kg |- *
  end.
  exists e, st1. split; [done|]. intros extra'. simpl in Kg.
  unfold create_data, bind, get_self. by rewrite Kg.
Qed.

Lemma create_data_after_git_failure_witness :
  ∃ e st1,
    create_data no_git_world PNone (fresh [("repo_token", PStr "abc123")])
    = (Raise e, st1)
    ∧ ∀ extra',
        create_data no_git_world extra' st1
        = (Ok [("source_files", PList [sample_file])], st1).
Proof.
  refine (create_data_after_git_failure no_git_world
            (fresh [("repo_token", PStr "abc123")]) _ PNone [sample_file]
            ["git"; "remote"; "-v"] eq_refl eq_refl _ _).
  - simpl. auto.
  - discriminate.
Defined.

(** ** Merging: errors and order *)

(** X13. A payload whose [source_files] is [None], a number or a boolean
    makes the first build raise TypeError after the report was built: the
    report stays in the cache without the merge, as a build with no
    payload leaves it. *)
Theorem merge_not_iterable_raises (w : World) (st st0 : state) (d0 e : dict)
    (l : list pyval) (x : pyval) :
  data_truthy (_data (self st)) = false →
  create_data w PNone st = (Ok d0, st0) →
  Dict.get "source_files" d0 = Some (PList l) →
  Dict.get "source_files" e = Some x →
  iter_items x = None →
  create_data w (PDict e) st = (Raise TypeError, st0).
Proof.
  intros Hu H0 Hl He Hx.
  destruct (create_data_first _ _ _ _ Hu H0) as [Ha Hd].
  rewrite (create_data_uncached _ _ _ _ Hu Ha).
  unfold merge_extra.
  assert (truthy (PDict e) = true) as -> by (by destruct e).
  unfold extra_source_files. rewrite He.
  unfold lift, bind at 2. unfold extend_source_files.
  unfold bind, get_self, raise. by rewrite Hd, Hl, Hx.
Qed.

Lemma merge_not_iterable_raises_witness :
  ∃ st0,
    create_data sample_world (PDict [("source_files", PNone)]) (fresh [])
    = (Raise TypeError, st0)
    ∧ data_truthy (_data (self st0)) = true.
Proof.
  eexists. split.
  - eapply (merge_not_iterable_raises sample_world (fresh []) _ _
              [("source_files", PNone)] [sample_file] PNone).
    + reflexivity.
    + vm_compute. reflexivity.
    + vm_compute. reflexivity.
    + reflexivity.
    + reflexivity.
  - vm_compute. reflexivity.
Defined.

(** X14. Only a merge that comes before the report is built counts: once
    [create_data] or [merge] has returned, a call of [merge] returns
    normally, merges nothing and logs nothing, whatever its payload. *)
Theorem merge_after_build_is_ignored (w : World) (st st1 : state)
    (extra payload : pyval) (d : dict) :
  create_data w extra st = (Ok d, st1) →
  merge w payload st1 = (Ok tt, st1).
Proof.
  intros [Hd Hne]%create_data_caches.
  unfold merge, create_data, bind, get_self. rewrite Hd.
  by destruct d.
Qed.

Lemma merge_after_build_is_ignored_witness :
  ∃ st1,
    merge sample_world (PDict [("source_files", PList [sample_file])]) (fresh [])
    = (Ok tt, st1)
    ∧ merge sample_world (PDict [("source_files", PList [latin1_file])]) st1
      = (Ok tt, st1).
Proof.
  eexists. split; [vm_compute; reflexivity|].
  eapply (merge_after_build_is_ignored sample_world (fresh []) _
            (PDict [("source_files", PList [sample_file])])).
  vm_compute. reflexivity.
Defined.

(** ** Submitting *)

(** X15. When the report is serialized, [wear] with [dry_run] returns the
    empty dictionary and sends nothing; without [dry_run] it posts the
    JSON string once to the endpoint and returns the JSON body of the
    answer, or, when the body is not JSON, a [message] that holds the
    status code and the text of the answer. *)
Theorem wear_submits_report (w : World) (st st1 : state) (js : string) :
  create_report w st = (Ok js, st1) →
  wear w true st = (Ok [], st1)
  ∧ wear w false st
    = (Ok (match json (requests_post w api_endpoint js) with
           | Some body => body
           | None =>
               [("message",
                 PStr ("Failure to submit data. Response ["
                       +:+ pretty (status_code (requests_post w api_endpoint js))
                       +:+ "]: " +:+ text (requests_post w api_endpoint js)))]
           end),
       {| self := self st1;
          trace := trace st1 ++ [HttpPost api_endpoint js] |}).
Proof.
  intros H. unfold wear, catch, bind, ret, emit. rewrite H. simpl.
  split; [done|]. by destruct (json _).
Qed.

Lemma wear_submits_report_witness :
  ∃ js st1,
    create_report bad_gateway_world (fresh []) = (Ok js, st1)
    ∧ wear bad_gateway_world true (fresh []) = (Ok [], st1)
    ∧ wear bad_gateway_world false (fresh [])
      = (Ok [("message",
              PStr "Failure to submit data. Response [502]: Bad Gateway")],
         {| self := self st1;
            trace := trace st1 ++ [HttpPost api_endpoint js] |}).
Proof.
  eexists _, _. split; [vm_compute; reflexivity|].
  apply (wear_submits_report bad_gateway_world (fresh [])).
  vm_compute. reflexivity.
Defined.

(** X16. [wear] catches the coverage exception only: any other exception
    of [create_report], a failing git command among them, leaves [wear]
    as it is, and nothing is sent. *)
Theorem wear_propagates_other_errors (w : World) (dry_run : bool)
    (st st1 : state) (e : exn) :
  create_report w st = (Raise e, st1) →
  (∀ msg, e ≠ CoverageException msg) →
  wear w dry_run st = (Raise e, st1).
Proof.
  intros H He. unfold wear, catch, bind, ret, raise. rewrite H.
  destruct e; try done. by destruct (He msg).
Qed.

Lemma wear_propagates_other_errors_witness :
  ∃ e st1,
    create_report no_git_world (fresh []) = (Raise e, st1)
    ∧ wear no_git_world false (fresh []) = (Raise e, st1).
Proof.
  eexists _, _. split; [vm_compute; reflexivity|].
  apply wear_propagates_other_errors; [vm_compute; reflexivity|].
  intros msg. discriminate.
Defined.

(** ** Redaction: text without the key *)

(** X18. The substitution changes nothing in a text where the quoted key
    [repo_token] followed by a colon, a space and a quote does not occur: a
    report without a repo token, or with one that is not a string, is
    logged as it is serialized. *)
Theorem sub_without_key_is_identity (s : string) :
  Str.contains Redact.token_key s = false → Redact.sub s = s.
Proof.
  unfold Redact.sub. induction s as [|c s IH]; [done|].
  intros H. change (Str.startswith Redact.token_key (String c s)
                    || Str.contains Redact.token_key s = false) in H.
  apply orb_false_iff in H as [Hs Hc].
  rewrite sub_from_here. unfold Redact.match_at. rewrite Hs.
  by rewrite IH.
Qed.

Lemma sub_without_key_is_identity_witness :
  ∃ js,
    Json.dumps (PDict [("source_files", PList [sample_file]);
                       ("repo_token", PInt 12345)]) = Ok js
    ∧ Redact.sub js = js.
Proof.
  eexists. split; [vm_compute; reflexivity|].
  apply sub_without_key_is_identity. vm_compute. reflexivity.
Defined.

(** ** What [create_report] logs *)

Lemma py_sum_counts cov acc :
  Forall is_count cov →
  py_sum acc (filter (fun x => truthy x = true) cov) = Ok (acc + count_sum cov)%Z.
Proof.
  intros H. revert acc. induction H as [|v cov Hv _ IH]; intros acc.
  - simpl. f_equal. lia.
  - rewrite filter_cons.
    destruct Hv as [->|[n ->]]; simpl.
    + destruct (decide (false = true)); [done|]. apply IH.
    + destruct (decide (negb (n =? 0)%Z = true)) as [Hn|Hn]; simpl.
      * rewrite IH. f_equal. lia.
      * rewrite IH. f_equal.
        apply not_true_is_false, negb_false_iff, Z.eqb_eq in Hn. lia.
Qed.

Lemma bind_lift_ok {A B} (a : A) (k : A → M B) s :
  bind (lift (Ok a)) k s = k a s.
Proof. done. Qed.

Lemma bind_emit {B} ev (k : unit → M B) s :
  bind (emit ev) k s = k tt {| self := self s; trace := trace s ++ [ev] |}.
Proof. done. Qed.

Lemma log_files_lines fs ncs s :
  Forall2 (fun f nc => covered_record f (fst nc) (snd nc)) fs ncs →
  log_files fs s
  = (Ok tt,
     {| self := self s;
        trace := trace s ++ map (fun nc => file_line (fst nc) (snd nc)) ncs |}).
Proof.
  intros H. revert s.
  induction H as [|f [name cov] fs ncs (d & -> & Hn & Hc & Hcov) _ IH];
    intros s.
  - cbn [log_files map]. rewrite app_nil_r. by destruct s.
  - cbn [log_files map fst snd] in *.
    unfold getitem. rewrite Hn, Hc.
    rewrite !bind_lift_ok. unfold sum_hits. cbn [iter_items].
    rewrite (py_sum_counts cov 0 Hcov), !bind_lift_ok.
    unfold py_len. cbn [iter_items fmap option_fmap option_map].
    rewrite bind_emit, IH. simpl.
    by rewrite <- app_assoc.
Qed.

(** X19. For a report that [json.dumps] can serialize and whose source-file
    records have a name and a coverage list of counts and [None],
    [create_report] returns the JSON string and logs three things in
    order: the redacted string, the number of files, and for each file its
    name, the sum of its execution counts and the length of its coverage
    list ([None] entries counted in the length, not in the sum). *)
Theorem create_report_logs (w : World) (st st1 : state) (data : dict)
    (js : string) (fs : list pyval) (ncs : list (pyval * list pyval)) :
  create_data w PNone st = (Ok data, st1) →
  Json.dumps (PDict data) = Ok js →
  Dict.get "source_files" data = Some (PList fs) →
  Forall2 (fun f nc => covered_record f (fst nc) (snd nc)) fs ncs →
  create_report w st
  = (Ok js,
     {| self := self st1;
        trace := trace st1
                 ++ [Log DEBUG (Redact.sub js) [];
                     Log DEBUG ("==" +:+ String newline ("Reporting %s files"
                                +:+ String newline ("==" +:+ String newline "")))
                       [AVal (PInt (Z.of_nat (List.length fs)))]]
                 ++ map (fun nc => file_line (fst nc) (snd nc)) ncs |}).
Proof.
  intros Hd Hjs Hsf Hfs.
  unfold create_report. rewrite (bind_step _ _ _ _ _ Hd). rewrite Hjs.
  rewrite bind_emit. unfold getitem. rewrite Hsf, bind_lift_ok.
  unfold py_len. cbn [iter_items fmap option_fmap option_map].
  rewrite bind_emit. unfold bind. rewrite (log_files_lines _ _ _ Hfs). simpl.
  by rewrite <- !app_assoc.
Qed.

Lemma create_report_logs_witness :
  ∃ js st1,
    create_report sample_world (fresh [])
    = (Ok js,
       {| self := self st1;
          trace := trace st1
                   ++ [Log DEBUG (Redact.sub js) [];
                       Log DEBUG ("==" +:+ String newline ("Reporting %s files"
                                  +:+ String newline ("==" +:+ String newline "")))
                         [AVal (PInt (Z.of_nat (List.length [sample_file])))]]
                   ++ map (fun nc => file_line (fst nc) (snd nc))
                        [(PStr "a.py", [PInt 1])] |}).
Proof.
  eexists _, _.
  eapply (create_report_logs sample_world (fresh []) _ _ _ [sample_file]
            [(PStr "a.py", [PInt 1])]).
  - vm_compute. reflexivity.
  - vm_compute. reflexivity.
  - vm_compute. reflexivity.
  - constructor; [|constructor].
    unfold covered_record, sample_file. eexists.
    split_and!; [reflexivity..|].
    constructor; [|constructor]. right. by eexists.
Defined.

Lemma log_files_prefix good ncs tl s :
  Forall2 (fun f nc => covered_record f (fst nc) (snd nc)) good ncs →
  log_files (good ++ tl) s
  = log_files tl
      {| self := self s;
         trace := trace s ++ map (fun nc => file_line (fst nc) (snd nc)) ncs |}.
Proof.
  intros H. revert s.
  induction H as [|f [name cov] fs ncs' (d & -> & Hn & Hc & Hcov) _ IH];
    intros s.
  - simpl. rewrite app_nil_r. by destruct s.
  - cbn [log_files map fst snd app] in *.
    unfold getitem. rewrite Hn, Hc.
    rewrite !bind_lift_ok. unfold sum_hits. cbn [iter_items].
    rewrite (py_sum_counts cov 0 Hcov), !bind_lift_ok.
    unfold py_len. cbn [iter_items fmap option_fmap option_map].
    rewrite bind_emit, IH. simpl.
    by rewrite <- app_assoc.
Qed.

(** X20. A source-file record without [coverage], as a merged payload can
    bring, makes [create_report] raise KeyError in its logging loop,
    although the report was serialized: the lines of the records before it
    are logged, and the JSON string is not returned. *)
Theorem create_report_record_without_coverage (w : World) (st st1 : state)
    (data d : dict) (js : string) (good rest : list pyval)
    (ncs : list (pyval * list pyval)) (name : pyval) :
  create_data w PNone st = (Ok data, st1) →
  Json.dumps (PDict data) = Ok js →
  Dict.get "source_files" data = Some (PList (good ++ PDict d :: rest)) →
  Forall2 (fun f nc => covered_record f (fst nc) (snd nc)) good ncs →
  Dict.get "name" d = Some name →
  Dict.get "coverage" d = None →
  create_report w st
  = (Raise (KeyError "coverage"),
     {| self := self st1;
        trace := trace st1
                 ++ [Log DEBUG (Redact.sub js) [];
                     Log DEBUG ("==" +:+ String newline ("Reporting %s files"
                                +:+ String newline ("==" +:+ String newline "")))
                       [AVal (PInt (Z.of_nat
                                      (List.length (good ++ PDict d :: rest))))]]
                 ++ map (fun nc => file_line (fst nc) (snd nc)) ncs |}).
Proof.
  intros Hd Hjs Hsf Hgood Hn Hc.
  unfold create_report. rewrite (bind_step _ _ _ _ _ Hd). rewrite Hjs.
  rewrite bind_emit. unfold getitem at 1. rewrite Hsf, bind_lift_ok.
  unfold py_len. cbn [iter_items fmap option_fmap option_map].
  rewrite bind_emit. unfold bind at 1.
  rewrite (log_files_prefix _ _ _ _ Hgood).
  cbn [log_files]. unfold getitem. rewrite Hn, Hc.
  rewrite bind_lift_ok. unfold bind, lift. simpl.
  by rewrite <- !app_assoc.
Qed.

Lemma create_report_record_without_coverage_witness :
  ∃ st0 js st1,
    merge sample_world
      (PDict [("source_files", PList [PDict [("name", PStr "b.py")]])])
      (fresh []) = (Ok tt, st0)
    ∧ create_report sample_world st0
      = (Raise (KeyError "coverage"),
         {| self := self st1;
            trace := trace st1
                     ++ [Log DEBUG (Redact.sub js) [];
                         Log DEBUG ("==" +:+ String newline ("Reporting %s files"
                                    +:+ String newline ("==" +:+ String newline "")))
                           [AVal (PInt (Z.of_nat
                                          (List.length ([sample_file]
                                             ++ PDict [("name", PStr "b.py")] :: []))))]]
                     ++ map (fun nc => file_line (fst nc) (snd nc))
                          [(PStr "a.py", [PInt 1])] |}).
Proof.
  eexists _, _, _. split; [vm_compute; reflexivity|].
  eapply (create_report_record_without_coverage sample_world _ _ _
            [("name", PStr "b.py")] _ [sample_file] []
            [(PStr "a.py", [PInt 1])] (PStr "b.py")).
  - vm_compute. reflexivity.
  - vm_compute. reflexivity.
  - reflexivity.
  - constructor; [|constructor].
    unfold covered_record, sample_file. eexists.
    split_and!; [reflexivity..|].
    constructor; [|constructor]. right. by eexists.
  - reflexivity.
  - reflexivity.
Defined.

(** ** Outside calls of a build *)

Lemma git_info_ok_trace w st g st' :
  git_info w st = (Ok g, st') →
  st' = {| self := self st; trace := trace st ++ map Popen git_commands |}.
Proof.
  intros H. unfold git_info, gitlog in H.
  do 8 step_git H.
  unfold bind at 1, lift at 1 in H.
  destruct (fetch_remotes _) in H; [|discriminate H].
  injection H as _ <-. simpl. by rewrite <- !app_assoc.
Qed.

(** X21. A first build that returns has made nine outside calls and no
    more: the coverage engine first, with the [config_file] of the
    configuration ([True] when it has none), then the eight git commands
    in order. *)
Theorem first_build_outside_calls (w : World) (st st' : state) (d : dict) :
  data_truthy (_data (self st)) = false →
  create_data w PNone st = (Ok d, st') →
  trace st'
  = (trace st
     ++ CoverageLoad (default (PBool true)
                        (Dict.get "config_file" (config (self st))))
     :: map Popen git_commands)%list.
Proof.
  intros Hu H. destruct (create_data_first _ _ _ _ Hu H) as [Ha _].
  unfold assemble in Ha.
  apply bind_ok in Ha as (fs & sc & Hc & Ha).
  unfold get_coverage, bind, get_self, emit, lift in Hc. simpl in Hc.
  injection Hc as _ <-.
  apply bind_ok in Ha as ([] & s2 & H2 & Ha).
  rewrite set_data_eq in H2. injection H2 as <-.
  apply bind_ok in Ha as (git & sg & Hg & Ha).
  apply git_info_ok_trace in Hg as ->.
  unfold bind, get_self in Ha. rewrite !set_data_eq in Ha.
  injection Ha as <-. simpl. by rewrite <- app_assoc.
Qed.

Lemma first_build_outside_calls_witness :
  ∃ d st',
    create_data sample_world PNone (fresh [("config_file", PStr "tox.ini")])
    = (Ok d, st')
    ∧ trace st'
      = (trace (fresh [("config_file", PStr "tox.ini")])
         ++ CoverageLoad
              (default (PBool true)
                 (Dict.get "config_file"
                    (config (self (fresh [("config_file", PStr "tox.ini")])))))
         :: map Popen git_commands)%list.
Proof.
  destruct (create_data sample_world PNone (fresh [("config_file", PStr "tox.ini")]))
    as [[d|e] st'] eqn:H.
  - exists d, st'. split; [reflexivity|].
    exact (first_build_outside_calls sample_world
             (fresh [("config_file", PStr "tox.ini")]) st' d eq_refl H).
  - vm_compute in H. discriminate H.
Defined.

(** ** The CircleCI pull-request id of a URL *)

Lemma mem_app_sep sep p n : Str.mem sep (p +:+ String sep n) = true.
Proof.
  induction p as [|c p IH]; rewrite ?app_cons; simpl.
  - by rewrite Ascii.eqb_refl.
  - rewrite IH. apply orb_true_r.
Qed.

Lemma last_item_split_app sep p n :
  Str.mem sep n = false →
  Str.last_item (Str.split sep (p +:+ String sep n)) = Some n.
Proof.
  intros Hn. induction p as [|c p IH].
  - change ("" +:+ ?x) with x. simpl. rewrite Ascii.eqb_refl.
    by rewrite (split_no_sep _ _ Hn).
  - rewrite app_cons. simpl.
    destruct (Str.split sep (p +:+ String sep n)) as [|h t] eqn:Es;
      [by apply split_nonempty in Es|].
    destruct (Ascii.eqb c sep); [done|].
    destruct t as [|h' t]; [|done].
    apply split_singleton in Es. by rewrite mem_app_sep in Es.
Qed.

(** X22. Under CircleCI, when [CI_PULL_REQUEST] is a URL that ends with a
    slash and a number, or any text without a slash, the pull-request id is
    that text; it is absent when the text is empty. *)
Theorem circle_pr_of_url (env : environ) (base n : string) :
  env !! "CI_PULL_REQUEST" = Some (base +:+ "/" +:+ n) →
  Str.mem "/" n = false →
  load_config_from_circle env
  = ("circle-ci", env !! "CIRCLE_BUILD_NUM",
     if String.eqb n "" then None else Some n).
Proof.
  intros He Hn.
  assert (base +:+ "/" +:+ n = base +:+ String "/" n) as Heq by done.
  rewrite Heq in He. unfold load_config_from_circle. rewrite He. simpl.
  by rewrite (last_item_split_app "/" base n Hn).
Qed.

Lemma circle_pr_of_url_witness :
  load_config_from_circle
    {[ "CI_PULL_REQUEST" := "https://github.com/o/r/pull/12";
       "CIRCLE_BUILD_NUM" := "345" ]}
  = ("circle-ci",
     ({[ "CI_PULL_REQUEST" := "https://github.com/o/r/pull/12";
         "CIRCLE_BUILD_NUM" := "345" ]} : environ) !! "CIRCLE_BUILD_NUM",
     if String.eqb "12" "" then None else Some "12").
Proof.
  apply (circle_pr_of_url
           {[ "CI_PULL_REQUEST" := "https://github.com/o/r/pull/12";
              "CIRCLE_BUILD_NUM" := "345" ]}
           "https://github.com/o/r/pull" "12").
  - vm_compute. reflexivity.
  - reflexivity.
Defined.
